(** * mss: the control client of a macOS scripting addition

    A shallow embedding of [src/common.h], [src/util.h] and [cli/cli.c].

    - [Common]: the capability bit constants and the opcode enumeration.
    - [Util]: the socket and privilege helpers, run against an operating
      system that answers each system call.
    - [Cli]: the command handlers and [main], run against a world that
      answers each call into the mss library, with the process globals and
      the two output streams as explicit state. *)

From Stdlib Require Import ZArith List String Ascii Bool Lia.
From Stdlib Require Import Strings.Byte.
Import ListNotations.

#[local] Open Scope string_scope.
#[local] Open Scope list_scope.
#[local] Open Scope Z_scope.

(* ================================================================== *)
(** ** Sequential code over an explicit state *)
(* ================================================================== *)

(** A C function that reads and writes globals, prints, or calls out is a
    function from the state before to its result and the state after. *)
Definition State (S A : Type) : Type := S -> A * S.

Definition ret {S A} (a : A) : State S A := fun s => (a, s).

Definition bind {S A B} (m : State S A) (f : A -> State S B) : State S B :=
  fun s => let (a, s') := m s in f a s'.

Declare Scope c_scope.
Delimit Scope c_scope with c.
Notation "x <- c ;; k" := (bind c (fun x => k))
  (at level 100, c at next level, right associativity) : c_scope.
Notation "c ;;; k" := (bind c (fun _ => k))
  (at level 100, right associativity) : c_scope.

(** [when c m]: an [if (c) { m }] with no else branch. *)
Definition when {S} (c : bool) (m : State S unit) : State S unit :=
  if c then m else ret tt.

(** Run a statement once per element, in order. *)
Fixpoint for_each {S A} (l : list A) (body : A -> State S unit) : State S unit :=
  match l with
  | [] => ret tt
  | a :: l' => bind (body a) (fun _ => for_each l' body)
  end.

(* ================================================================== *)
(** ** common.h *)
(* ================================================================== *)

Module Common.

Definition OSAX_ATTRIB_DOCK_SPACES : Z := 0x01.
Definition OSAX_ATTRIB_DPPM        : Z := 0x02.
Definition OSAX_ATTRIB_ADD_SPACE   : Z := 0x04.
Definition OSAX_ATTRIB_REM_SPACE   : Z := 0x08.
Definition OSAX_ATTRIB_MOV_SPACE   : Z := 0x10.
Definition OSAX_ATTRIB_SET_WINDOW  : Z := 0x20.
Definition OSAX_ATTRIB_ANIM_TIME   : Z := 0x40.

Definition OSAX_ATTRIB_ALL : Z :=
  Z.lor OSAX_ATTRIB_DOCK_SPACES
 (Z.lor OSAX_ATTRIB_DPPM
 (Z.lor OSAX_ATTRIB_ADD_SPACE
 (Z.lor OSAX_ATTRIB_REM_SPACE
 (Z.lor OSAX_ATTRIB_MOV_SPACE
 (Z.lor OSAX_ATTRIB_SET_WINDOW
        OSAX_ATTRIB_ANIM_TIME))))).

(** The seven flags, in the order of their definition. *)
Definition osax_attribs : list Z :=
  [ OSAX_ATTRIB_DOCK_SPACES; OSAX_ATTRIB_DPPM; OSAX_ATTRIB_ADD_SPACE;
    OSAX_ATTRIB_REM_SPACE; OSAX_ATTRIB_MOV_SPACE; OSAX_ATTRIB_SET_WINDOW;
    OSAX_ATTRIB_ANIM_TIME ].

Inductive sa_opcode : Set :=
| SA_OPCODE_HANDSHAKE
| SA_OPCODE_SPACE_FOCUS
| SA_OPCODE_SPACE_CREATE
| SA_OPCODE_SPACE_DESTROY
| SA_OPCODE_SPACE_MOVE
| SA_OPCODE_WINDOW_MOVE
| SA_OPCODE_WINDOW_OPACITY
| SA_OPCODE_WINDOW_OPACITY_FADE
| SA_OPCODE_WINDOW_LAYER
| SA_OPCODE_WINDOW_STICKY
| SA_OPCODE_WINDOW_SHADOW
| SA_OPCODE_WINDOW_FOCUS
| SA_OPCODE_WINDOW_SCALE
| SA_OPCODE_WINDOW_SWAP_PROXY_IN
| SA_OPCODE_WINDOW_SWAP_PROXY_OUT
| SA_OPCODE_WINDOW_ORDER
| SA_OPCODE_WINDOW_ORDER_IN
| SA_OPCODE_WINDOW_LIST_TO_SPACE
| SA_OPCODE_WINDOW_TO_SPACE
| SA_OPCODE_WINDOW_RESIZE
| SA_OPCODE_WINDOW_SET_FRAME
| SA_OPCODE_WINDOW_GET_OPACITY
| SA_OPCODE_WINDOW_GET_FRAME
| SA_OPCODE_WINDOW_IS_STICKY
| SA_OPCODE_WINDOW_GET_LAYER
| SA_OPCODE_WINDOW_MINIMIZE
| SA_OPCODE_WINDOW_UNMINIMIZE
| SA_OPCODE_WINDOW_IS_MINIMIZED
| SA_OPCODE_DISPLAY_GET_COUNT
| SA_OPCODE_DISPLAY_GET_LIST.

(** The numeric value the enumeration gives each enumerator. *)
Definition opcode_value (op : sa_opcode) : Z :=
  match op with
  | SA_OPCODE_HANDSHAKE             => 0x01
  | SA_OPCODE_SPACE_FOCUS           => 0x02
  | SA_OPCODE_SPACE_CREATE          => 0x03
  | SA_OPCODE_SPACE_DESTROY         => 0x04
  | SA_OPCODE_SPACE_MOVE            => 0x05
  | SA_OPCODE_WINDOW_MOVE           => 0x06
  | SA_OPCODE_WINDOW_OPACITY        => 0x07
  | SA_OPCODE_WINDOW_OPACITY_FADE   => 0x08
  | SA_OPCODE_WINDOW_LAYER          => 0x09
  | SA_OPCODE_WINDOW_STICKY         => 0x0A
  | SA_OPCODE_WINDOW_SHADOW         => 0x0B
  | SA_OPCODE_WINDOW_FOCUS          => 0x0C
  | SA_OPCODE_WINDOW_SCALE          => 0x0D
  | SA_OPCODE_WINDOW_SWAP_PROXY_IN  => 0x0E
  | SA_OPCODE_WINDOW_SWAP_PROXY_OUT => 0x0F
  | SA_OPCODE_WINDOW_ORDER          => 0x10
  | SA_OPCODE_WINDOW_ORDER_IN       => 0x11
  | SA_OPCODE_WINDOW_LIST_TO_SPACE  => 0x12
  | SA_OPCODE_WINDOW_TO_SPACE       => 0x13
  | SA_OPCODE_WINDOW_RESIZE         => 0x14
  | SA_OPCODE_WINDOW_SET_FRAME      => 0x15
  | SA_OPCODE_WINDOW_GET_OPACITY    => 0x16
  | SA_OPCODE_WINDOW_GET_FRAME      => 0x17
  | SA_OPCODE_WINDOW_IS_STICKY      => 0x18
  | SA_OPCODE_WINDOW_GET_LAYER      => 0x19
  | SA_OPCODE_WINDOW_MINIMIZE       => 0x1A
  | SA_OPCODE_WINDOW_UNMINIMIZE     => 0x1B
  | SA_OPCODE_WINDOW_IS_MINIMIZED   => 0x1C
  | SA_OPCODE_DISPLAY_GET_COUNT     => 0x1D
  | SA_OPCODE_DISPLAY_GET_LIST      => 0x1E
  end.

Definition all_opcodes : list sa_opcode :=
  [ SA_OPCODE_HANDSHAKE; SA_OPCODE_SPACE_FOCUS; SA_OPCODE_SPACE_CREATE;
    SA_OPCODE_SPACE_DESTROY; SA_OPCODE_SPACE_MOVE; SA_OPCODE_WINDOW_MOVE;
    SA_OPCODE_WINDOW_OPACITY; SA_OPCODE_WINDOW_OPACITY_FADE;
    SA_OPCODE_WINDOW_LAYER; SA_OPCODE_WINDOW_STICKY; SA_OPCODE_WINDOW_SHADOW;
    SA_OPCODE_WINDOW_FOCUS; SA_OPCODE_WINDOW_SCALE;
    SA_OPCODE_WINDOW_SWAP_PROXY_IN; SA_OPCODE_WINDOW_SWAP_PROXY_OUT;
    SA_OPCODE_WINDOW_ORDER; SA_OPCODE_WINDOW_ORDER_IN;
    SA_OPCODE_WINDOW_LIST_TO_SPACE; SA_OPCODE_WINDOW_TO_SPACE;
    SA_OPCODE_WINDOW_RESIZE; SA_OPCODE_WINDOW_SET_FRAME;
    SA_OPCODE_WINDOW_GET_OPACITY; SA_OPCODE_WINDOW_GET_FRAME;
    SA_OPCODE_WINDOW_IS_STICKY; SA_OPCODE_WINDOW_GET_LAYER;
    SA_OPCODE_WINDOW_MINIMIZE; SA_OPCODE_WINDOW_UNMINIMIZE;
    SA_OPCODE_WINDOW_IS_MINIMIZED; SA_OPCODE_DISPLAY_GET_COUNT;
    SA_OPCODE_DISPLAY_GET_LIST ].

(** A value is a single bit when it is a power of two. *)
Definition single_bit (v : Z) : Prop := exists k : Z, 0 <= k /\ v = 2 ^ k.

End Common.

(* ================================================================== *)
(** ** util.h *)
(* ================================================================== *)

Module Util.

(** A C string is the list of its bytes before the terminating NUL. *)
Definition cstring := list byte.

(** A byte of storage: [None] while it is still indeterminate. *)
Definition cell := option byte.

Inductive shut_how := SHUT_RD | SHUT_WR | SHUT_RDWR.
Inductive sa_family := AF_UNSPEC | AF_UNIX.
Inductive sock_type := SOCK_STREAM | SOCK_DGRAM.

Record sockaddr_un := mk_sockaddr_un
  { sun_family : option sa_family;
    sun_path   : list cell }.

(** The system calls the helpers make, with their arguments.  The length
    argument of [connect] is always [sizeof(struct sockaddr_un)] and is not
    recorded. *)
Inductive syscall :=
| sys_socket   (domain : sa_family) (type : sock_type) (protocol : Z)
| sys_connect  (sockfd : Z) (address : sockaddr_un)
| sys_shutdown (sockfd : Z) (how : shut_how)
| sys_close    (sockfd : Z)
| sys_getuid
| sys_geteuid.

(** What a system call hands back: its return value and the [errno] it
    leaves when that value is -1. *)
Record sysret := mk_sysret { ret_val : Z; ret_errno : Z }.

(** The operating system the helpers run against: the credentials of the
    process and the answer to each call. *)
Record os := mk_os
  { os_uid      : Z;
    os_euid     : Z;
    os_socket   : sa_family -> sock_type -> Z -> sysret;
    os_connect  : Z -> sockaddr_un -> sysret;
    os_shutdown : Z -> shut_how -> sysret;
    os_close    : Z -> sysret }.

(** The process as the helpers change it: the calls made so far, oldest
    first, and [errno]. *)
Record kstate := mk_kstate { calls : list syscall; errno : Z }.

Definition M : Type -> Type := State kstate.

Definition answer (o : os) (c : syscall) : sysret :=
  match c with
  | sys_socket d t p   => os_socket o d t p
  | sys_connect fd a   => os_connect o fd a
  | sys_shutdown fd h  => os_shutdown o fd h
  | sys_close fd       => os_close o fd
  | sys_getuid         => mk_sysret (os_uid o) 0
  | sys_geteuid        => mk_sysret (os_euid o) 0
  end.

(** Make one system call: record it, and store [errno] when it fails. *)
Definition call (o : os) (c : syscall) : M Z :=
  fun k =>
    let r := answer o c in
    (ret_val r,
     mk_kstate (calls k ++ [c])
               (if ret_val r =? -1 then ret_errno r else errno k)).

(** [snprintf(buf, size, "%s", s)]: nothing is written when [size] is 0;
    otherwise at most [size - 1] bytes of [s], then a NUL.  The value
    returned is the length of [s]. *)
Definition snprintf_s (buf : list cell) (size : nat) (s : cstring)
  : list cell * Z :=
  match size with
  | O => (buf, Z.of_nat (List.length s))
  | S m =>
      let written := map Some (firstn m s ++ [x00]) in
      (written ++ skipn (List.length written) buf, Z.of_nat (List.length s))
  end.

(** The bytes [snprintf_s] stores, in order. *)
Definition snprintf_written (size : nat) (s : cstring) : list byte :=
  match size with
  | O => []
  | S m => firstn m s ++ [x00]
  end.

(** The C string held in a buffer: the bytes before the first NUL.  [None]
    when an indeterminate byte or the end of the buffer comes first. *)
Fixpoint c_str (buf : list cell) : option cstring :=
  match buf with
  | [] => None
  | None :: _ => None
  | Some b :: rest =>
      if Byte.eqb b x00 then Some []
      else match c_str rest with
           | Some s => Some (b :: s)
           | None => None
           end
  end.

(** No NUL inside: what every C string satisfies. *)
Definition nul_free (s : cstring) : Prop := ~ In x00 s.

Section Platform.

(** [sizeof(((struct sockaddr_un * )0)->sun_path)], fixed by <sys/un.h>. *)
Variable sun_path_size : nat.

#[local] Open Scope c_scope.

Definition socket_open (o : os) : M (bool * Z) :=
  sockfd <- call o (sys_socket AF_UNIX SOCK_STREAM 0) ;;
  ret (negb (sockfd =? -1), sockfd).

(** The address [socket_connect] builds in its local variable. *)
Definition socket_address_of (socket_path : cstring) : sockaddr_un :=
  let socket_address := mk_sockaddr_un None (repeat None sun_path_size) in
  let socket_address := mk_sockaddr_un (Some AF_UNIX) (sun_path socket_address) in
  mk_sockaddr_un (sun_family socket_address)
    (fst (snprintf_s (sun_path socket_address) sun_path_size socket_path)).

Definition socket_connect (o : os) (sockfd : Z) (socket_path : cstring)
  : M bool :=
  r <- call o (sys_connect sockfd (socket_address_of socket_path)) ;;
  ret (negb (r =? -1)).

Definition socket_close (o : os) (sockfd : Z) : M unit :=
  call o (sys_shutdown sockfd SHUT_RDWR) ;;;
  call o (sys_close sockfd) ;;;
  ret tt.

Definition is_root (o : os) : M bool :=
  uid <- call o sys_getuid ;;
  if uid =? 0 then ret true
  else euid <- call o sys_geteuid ;; ret (euid =? 0).

Definition string_equals (a b : option cstring) : bool :=
  match a, b with
  | Some a', Some b' => if list_eq_dec Byte.byte_eq_dec a' b' then true else false
  | _, _ => false
  end.

End Platform.

(** A connect attempt fails when the system call returns -1, whatever
    [errno] says about the cause. *)
Definition connect_fails (o : os) (sockfd : Z) (a : sockaddr_un) : Prop :=
  ret_val (os_connect o sockfd a) = -1.

End Util.

(* ================================================================== *)
(** ** cli.c *)
(* ================================================================== *)

Module Cli.

#[local] Open Scope c_scope.

(** The constants [cli.c] takes from [mss.h], which is not among the
    sources: they are parameters of everything below. *)
Class mss_h := mk_mss_h
  { MSS_SUCCESS         : Z;
    MSS_CAP_DOCK_SPACES : Z;
    MSS_CAP_DPPM        : Z;
    MSS_CAP_ADD_SPACE   : Z;
    MSS_CAP_REM_SPACE   : Z;
    MSS_CAP_MOV_SPACE   : Z;
    MSS_CAP_SET_WINDOW  : Z;
    MSS_CAP_ANIM_TIME   : Z }.

(** The header whose capability constants are the wire values of
    [common.h]. *)
Definition caps_of_common (h : mss_h) : Prop :=
  MSS_CAP_DOCK_SPACES = Common.OSAX_ATTRIB_DOCK_SPACES /\
  MSS_CAP_DPPM        = Common.OSAX_ATTRIB_DPPM /\
  MSS_CAP_ADD_SPACE   = Common.OSAX_ATTRIB_ADD_SPACE /\
  MSS_CAP_REM_SPACE   = Common.OSAX_ATTRIB_REM_SPACE /\
  MSS_CAP_MOV_SPACE   = Common.OSAX_ATTRIB_MOV_SPACE /\
  MSS_CAP_SET_WINDOW  = Common.OSAX_ATTRIB_SET_WINDOW /\
  MSS_CAP_ANIM_TIME   = Common.OSAX_ATTRIB_ANIM_TIME.

Definition common_mss_h (success : Z) : mss_h :=
  mk_mss_h success
    Common.OSAX_ATTRIB_DOCK_SPACES Common.OSAX_ATTRIB_DPPM
    Common.OSAX_ATTRIB_ADD_SPACE Common.OSAX_ATTRIB_REM_SPACE
    Common.OSAX_ATTRIB_MOV_SPACE Common.OSAX_ATTRIB_SET_WINDOW
    Common.OSAX_ATTRIB_ANIM_TIME.

(** *** Output *)

(** An argument handed to a [printf]-family call.  A string argument is a
    pointer: [None] is NULL. *)
Inductive arg :=
| arg_str (s : option string)
| arg_int (n : Z).

Inductive stream := stdout | stderr.

(** One [printf]-family call: the stream, the format as written in the
    source, and the arguments. *)
Record output := mk_output
  { out_stream : stream;
    out_format : string;
    out_args   : list arg }.

(** *** Process state *)

(** The functions that can be registered as log sink. *)
Inductive callback := log_callback_fn.

(** A store into a process-wide variable. *)
Inductive store :=
| store_g_verbose (b : bool)
| store_log_callback (cb : callback).

Record state := mk_state
  { g_verbose : bool;                (* static bool g_verbose *)
    log_sink  : option callback;     (* the sink the library holds *)
    outputs   : list output;         (* everything printed, oldest first *)
    stores    : list store }.        (* every store to the two above *)

Definition initial_state : state := mk_state false None [] [].

Definition M : Type -> Type := State state.

Definition read_g_verbose : M bool := fun s => (g_verbose s, s).

Definition write_g_verbose (b : bool) : M unit :=
  fun s => (tt, mk_state b (log_sink s) (outputs s)
                         (stores s ++ [store_g_verbose b])).

Definition fprintf (f : stream) (format : string) (args : list arg) : M unit :=
  fun s => (tt, mk_state (g_verbose s) (log_sink s)
                         (outputs s ++ [mk_output f format args]) (stores s)).

Definition printf : string -> list arg -> M unit := fprintf stdout.

(** *** The world outside the process *)

(** The outcome of a library call: its return code and the messages it
    sends to the log sink while it runs. *)
Record lib_result := mk_lib_result
  { result   : Z;
    messages : list string }.

(** The outcome of [mss_handshake]: besides the above, the values found in
    [capabilities] and [version] afterwards (0 and NULL unless the library
    stored something). *)
Record handshake_result := mk_handshake_result
  { hs_result       : Z;
    hs_capabilities : Z;
    hs_version      : option string;
    hs_messages     : list string }.

Record world := mk_world
  { stat_osax          : Z;      (* stat("/Library/ScriptingAdditions/mss.osax") *)
    progname           : string; (* getprogname() *)
    create_ok          : bool;   (* mss_create returned a context *)
    create_messages    : list string;
    destroy_messages   : list string;
    check_requirements : lib_result;
    install            : lib_result;
    load               : lib_result;
    uninstall          : lib_result;
    handshake          : handshake_result }.

(** A value a [uint32_t] can hold. *)
Definition uint32 (c : Z) : Prop := 0 <= c < 2 ^ 32.

Section WithHeader.

Context {h : mss_h}.

(** *** Logging *)

Definition log_callback (message : string) : M unit :=
  v <- read_g_verbose ;;
  when v (printf "[mss] %s\n" [arg_str (Some message)]).

Definition invoke (cb : callback) : string -> M unit :=
  match cb with log_callback_fn => log_callback end.

Definition mss_set_log_callback (cb : callback) : M unit :=
  fun s => (tt, mk_state (g_verbose s) (Some cb) (outputs s)
                         (stores s ++ [store_log_callback cb])).

(** The library itself is not among the sources.  It is taken to pass each
    of its messages to the registered sink while the call runs, which is
    what [main] ("Enable logging if verbose") and [cmd_status] ("Don't show
    logs during status check") rely on. *)
Definition library_logs (msgs : list string) : M unit :=
  for_each msgs (fun m =>
    fun s => match log_sink s with
             | Some cb => invoke cb m s
             | None => (tt, s)
             end).

Definition print_quiet (format : string) (args : list arg) : M unit :=
  printf format args.

Definition print_error (format : string) (args : list arg) : M unit :=
  fprintf stderr "Error: " [] ;;;
  fprintf stderr format args ;;;
  fprintf stderr "\n" [].

(** *** Calls into the library *)

Definition lib_call (r : lib_result) : M Z :=
  library_logs (messages r) ;;; ret (result r).

Definition mss_check_requirements (w : world) : M Z := lib_call (check_requirements w).
Definition mss_install (w : world) : M Z := lib_call (install w).
Definition mss_load (w : world) : M Z := lib_call (load w).
Definition mss_uninstall (w : world) : M Z := lib_call (uninstall w).

(** Returns the code, then the contents of [capabilities] and [version]. *)
Definition mss_handshake (w : world) : M (Z * Z * option string) :=
  library_logs (hs_messages (handshake w)) ;;;
  ret (hs_result (handshake w), hs_capabilities (handshake w),
       hs_version (handshake w)).

Definition mss_create (w : world) : M bool :=
  library_logs (create_messages w) ;;; ret (create_ok w).

Definition mss_destroy (w : world) : M unit :=
  library_logs (destroy_messages w).

(** *** Help text *)

Definition print_help (program_name : option string) : M unit :=
  printf "mss - macOS Scripting Addition Manager\n" [] ;;;
  printf "\n" [] ;;;
  printf "Usage: %s <command> [options]\n" [arg_str program_name] ;;;
  printf "\n" [] ;;;
  printf "Commands:\n" [] ;;;
  printf "  check        Check system requirements\n" [] ;;;
  printf "  install      Install scripting addition\n" [] ;;;
  printf "  load         Load scripting addition (installs if needed)\n" [] ;;;
  printf "  uninstall    Remove scripting addition\n" [] ;;;
  printf "  status       Show installation status\n" [] ;;;
  printf "  test         Test if scripting addition is working\n" [] ;;;
  printf "\n" [] ;;;
  printf "Options:\n" [] ;;;
  printf "  -v, --verbose    Show detailed output\n" [] ;;;
  printf "  -h, --help       Show this help message\n" [] ;;;
  printf "\n" [] ;;;
  printf "Requirements:\n" [] ;;;
  printf "  - Root privileges (use sudo)\n" [] ;;;
  printf "  - SIP partially disabled (Filesystem + Debugging Restrictions)\n" [] ;;;
  printf "  - ARM64: boot-arg '-arm64e_preview_abi' must be set\n" [] ;;;
  printf "\n" [] ;;;
  printf "Examples:\n" [] ;;;
  printf "  sudo %s check          # Check requirements\n" [arg_str program_name] ;;;
  printf "  sudo %s load -v        # Install and load with verbose output\n" [arg_str program_name] ;;;
  printf "  sudo %s status         # Show current status\n" [arg_str program_name] ;;;
  printf "  sudo %s test           # Verify it's working\n" [arg_str program_name] ;;;
  printf "  sudo %s uninstall      # Remove completely\n" [arg_str program_name] ;;;
  printf "\n" [].

(** *** Utility functions *)

Definition is_installed (w : world) : bool := stat_osax w =? 0.

(** *** Command handlers *)

Definition cmd_check (w : world) : M Z :=
  v <- read_g_verbose ;;
  when (negb v) (print_quiet "Checking system requirements...\n" []) ;;;
  result <- mss_check_requirements w ;;
  if result =? MSS_SUCCESS then
    print_quiet "✓ All system requirements met\n" [] ;;;
    ret 0
  else
    print_error "System requirements not met" [] ;;;
    v <- read_g_verbose ;;
    when (negb v) (print_quiet "\nRun with --verbose for detailed information\n" []) ;;;
    ret 1.

Definition cmd_install (w : world) : M Z :=
  v <- read_g_verbose ;;
  when (negb v) (print_quiet "Installing scripting addition...\n" []) ;;;
  result <- mss_install w ;;
  if result =? MSS_SUCCESS then
    print_quiet "✓ Installed successfully\n" [] ;;;
    ret 0
  else
    print_error "Installation failed" [] ;;;
    v <- read_g_verbose ;;
    when (negb v) (print_quiet "\nRun with --verbose for detailed error information\n" []) ;;;
    ret 1.

Definition cmd_load (w : world) : M Z :=
  v <- read_g_verbose ;;
  when (negb v) (print_quiet "Loading scripting addition...\n" []) ;;;
  result <- mss_load w ;;
  if result =? MSS_SUCCESS then
    print_quiet "✓ Loaded successfully\n" [] ;;;
    ret 0
  else
    print_error "Loading failed" [] ;;;
    v <- read_g_verbose ;;
    when (negb v) (print_quiet "\nRun with --verbose for detailed error information\n" []) ;;;
    ret 1.

Definition cmd_uninstall (w : world) : M Z :=
  v <- read_g_verbose ;;
  when (negb v) (print_quiet "Uninstalling scripting addition...\n" []) ;;;
  result <- mss_uninstall w ;;
  if result =? MSS_SUCCESS then
    print_quiet "✓ Uninstalled successfully\n" [] ;;;
    ret 0
  else
    print_error "Uninstallation failed" [] ;;;
    v <- read_g_verbose ;;
    when (negb v) (print_quiet "\nRun with --verbose for detailed error information\n" []) ;;;
    ret 1.

(** A C condition on an integer: true when it is not 0. *)
Definition truthy (x : Z) : bool := negb (x =? 0).

(** The counting loop of [cmd_status]:
    [for (int i = 0; i < 7; i++) if (capabilities & (1 << i)) cap_count++;] *)
Definition status_cap_count (capabilities : Z) : Z :=
  fold_left
    (fun cap_count i =>
       if truthy (Z.land capabilities (Z.shiftl 1 i)) then cap_count + 1
       else cap_count)
    (map Z.of_nat (seq 0 7)) 0.

Definition cmd_status (w : world) : M Z :=
  printf "Status Report:\n" [] ;;;
  printf "\n" [] ;;;
  (if is_installed w then
     printf "Installation: ✓ Installed at /Library/ScriptingAdditions/mss.osax\n" []
   else
     printf "Installation: ✗ Not installed\n" []) ;;;
  hs <- mss_handshake w ;;
  let '(result, capabilities, version) := hs in
  (if result =? MSS_SUCCESS then
     let cap_count := status_cap_count capabilities in
     printf "Loading:      ✓ Loaded (version %s, %d/%d capabilities)\n"
            [arg_str version; arg_int cap_count; arg_int 7]
   else
     printf "Loading:      ✗ Not loaded\n" []) ;;;
  old_verbose <- read_g_verbose ;;
  write_g_verbose false ;;;
  result <- mss_check_requirements w ;;
  write_g_verbose old_verbose ;;;
  (if result =? MSS_SUCCESS then
     printf "Requirements: ✓ All requirements met\n" []
   else
     printf "Requirements: ✗ Not met (run 'check' for details)\n" []) ;;;
  printf "\n" [] ;;;
  ret 0.

(** One [if (capabilities & FLAG) { printf(line); cap_count++; }] of
    [cmd_test]; returns the new [cap_count]. *)
Definition test_cap (capabilities flag : Z) (line : string) (cap_count : Z) : M Z :=
  if truthy (Z.land capabilities flag) then
    printf line [] ;;; ret (cap_count + 1)
  else ret cap_count.

(** The tally of [cmd_test], with its printing. *)
Definition test_caps (capabilities : Z) : M Z :=
  cap_count <- ret 0 ;;
  cap_count <- test_cap capabilities MSS_CAP_DOCK_SPACES "    ✓ Dock Spaces\n" cap_count ;;
  cap_count <- test_cap capabilities MSS_CAP_DPPM "    ✓ Desktop Picture Manager\n" cap_count ;;
  cap_count <- test_cap capabilities MSS_CAP_ADD_SPACE "    ✓ Add Space\n" cap_count ;;
  cap_count <- test_cap capabilities MSS_CAP_REM_SPACE "    ✓ Remove Space\n" cap_count ;;
  cap_count <- test_cap capabilities MSS_CAP_MOV_SPACE "    ✓ Move Space\n" cap_count ;;
  cap_count <- test_cap capabilities MSS_CAP_SET_WINDOW "    ✓ Set Window\n" cap_count ;;
  cap_count <- test_cap capabilities MSS_CAP_ANIM_TIME "    ✓ Animation Time\n" cap_count ;;
  ret cap_count.

(** The value [cap_count] has after the seven tests of [cmd_test]. *)
Definition test_cap_count (capabilities : Z) : Z :=
  fst (test_caps capabilities initial_state).

Definition cmd_test (w : world) : M Z :=
  printf "Testing scripting addition...\n" [] ;;;
  hs <- mss_handshake w ;;
  let '(result, capabilities, version) := hs in
  if negb (result =? MSS_SUCCESS) then
    print_error "Handshake failed - scripting addition not loaded" [] ;;;
    printf "\nTry running: sudo %s load\n" [arg_str (Some (progname w))] ;;;
    ret 1
  else
    printf "✓ Handshake successful\n" [] ;;;
    printf "  Version: %s\n" [arg_str version] ;;;
    printf "  Capabilities:\n" [] ;;;
    cap_count <- test_caps capabilities ;;
    printf "\n" [] ;;;
    if cap_count =? 7 then
      printf "✓ Scripting addition is working correctly (%d/%d capabilities)\n"
             [arg_int cap_count; arg_int 7] ;;;
      ret 0
    else
      printf "⚠ Warning: Only %d/%d capabilities available\n"
             [arg_int cap_count; arg_int 7] ;;;
      printf "  This may indicate compatibility issues with your macOS version\n" [] ;;;
      ret 1.

(** *** Main *)

(** [argv[i][0] == '-'] *)
Definition starts_with_dash (a : string) : bool :=
  match a with
  | String c _ => Ascii.eqb c "-"%char
  | EmptyString => false
  end.

(** The argument loop of [main], over [argv[1]], [argv[2]], ...: [inl code]
    when the loop returns from [main] with [code], [inr command] when it
    runs to its end. *)
Fixpoint parse_args (argv0 : option string) (rest : list string)
         (command : option string) : M (Z + option string) :=
  match rest with
  | [] => ret (inr command)
  | a :: rest' =>
      if (a =? "-v")%string || (a =? "--verbose")%string then
        write_g_verbose true ;;;
        parse_args argv0 rest' command
      else if (a =? "-h")%string || (a =? "--help")%string then
        print_help argv0 ;;;
        ret (inl 0)
      else if starts_with_dash a then
        print_error "Unknown option: %s" [arg_str (Some a)] ;;;
        print_help argv0 ;;;
        ret (inl 1)
      else
        match command with
        | None => parse_args argv0 rest' (Some a)
        | Some _ =>
            print_error "Unexpected argument: %s" [arg_str (Some a)] ;;;
            print_help argv0 ;;;
            ret (inl 1)
        end
  end.

(** The dispatch of [main] on the command word. *)
Definition dispatch (w : world) (argv0 : option string) (command : string) : M Z :=
  if (command =? "check")%string then cmd_check w
  else if (command =? "install")%string then cmd_install w
  else if (command =? "load")%string then cmd_load w
  else if (command =? "uninstall")%string then cmd_uninstall w
  else if (command =? "status")%string then cmd_status w
  else if (command =? "test")%string then cmd_test w
  else
    print_error "Unknown command: %s" [arg_str (Some command)] ;;;
    printf "\n" [] ;;;
    print_help argv0 ;;;
    ret 1.

(** [main(argc, argv)], with [argc] the length of [argv]; the value is the
    exit code of the process. *)
Definition main (w : world) (argv : list string) : M Z :=
  let argv0 := nth_error argv 0 in
  parsed <- parse_args argv0 (tl argv) None ;;
  match parsed with
  | inl code => ret code
  | inr None =>
      print_error "No command specified" [] ;;;
      printf "\n" [] ;;;
      print_help argv0 ;;;
      ret 1
  | inr (Some command) =>
      mss_set_log_callback log_callback_fn ;;;
      ctx <- mss_create w ;;
      if negb ctx then
        print_error "Failed to create context" [] ;;;
        ret 1
      else
        result <- dispatch w argv0 command ;;
        mss_destroy w ;;;
        ret result
  end.

(** Running the program from a fresh process. *)
Definition run (w : world) (argv : list string) : Z * state :=
  main w argv initial_state.

Definition exit_code (w : world) (argv : list string) : Z := fst (run w argv).

End WithHeader.

End Cli.

(* ================================================================== *)
(** ** Vocabulary of the properties *)
(* ================================================================== *)

(** The population count of a number: how many 1 bits its binary
    representation has. *)
Fixpoint popcount_pos (p : positive) : Z :=
  match p with
  | xH => 1
  | xO p' => popcount_pos p'
  | xI p' => 1 + popcount_pos p'
  end.

Definition popcount (x : Z) : Z :=
  match x with
  | Zpos p => popcount_pos p
  | _ => 0
  end.

Module Report.

Import Cli.

(** What [log_callback] prints for a message. *)
Definition log_line (m : string) : output :=
  mk_output stdout "[mss] %s\n" [arg_str (Some m)].

(** What reaches the terminal of the messages the library sends while the
    process is in state [s]. *)
Definition log_lines (s : state) (msgs : list string) : list output :=
  match log_sink s with
  | Some log_callback_fn => if g_verbose s then map log_line msgs else []
  | None => []
  end.

(** The three lines of a status report, each for a sub-check that passed
    ([true]) or failed ([false]). *)
Definition installation_line (ok : bool) : output :=
  if ok then
    mk_output stdout "Installation: ✓ Installed at /Library/ScriptingAdditions/mss.osax\n" []
  else
    mk_output stdout "Installation: ✗ Not installed\n" [].

Definition loading_line (ok : bool) (version : option string) (cap_count : Z) : output :=
  if ok then
    mk_output stdout "Loading:      ✓ Loaded (version %s, %d/%d capabilities)\n"
              [arg_str version; arg_int cap_count; arg_int 7]
  else
    mk_output stdout "Loading:      ✗ Not loaded\n" [].

Definition requirements_line (ok : bool) : output :=
  if ok then mk_output stdout "Requirements: ✓ All requirements met\n" []
  else mk_output stdout "Requirements: ✗ Not met (run 'check' for details)\n" [].

(** The error line [print_error] writes for a message without arguments. *)
Definition error_lines (format : string) (args : list arg) : list output :=
  [ mk_output stderr "Error: " []; mk_output stderr format args;
    mk_output stderr "\n" [] ].

(** One step of a capability tally: [if (capabilities & flag) cap_count++]. *)
Definition bump (capabilities flag cap_count : Z) : Z :=
  if truthy (Z.land capabilities flag) then cap_count + 1 else cap_count.

(** The state after printing [l] and nothing else. *)
Definition emit (s : state) (l : list output) : state :=
  mk_state (g_verbose s) (log_sink s) (outputs s ++ l) (stores s).

(** [m] always returns [a], and changes the state only by printing. *)
Definition outputs_only {A} (m : M A) (a : A) : Prop :=
  forall s, exists l, m s = (a, emit s l).

(** The lines of the help text. *)
Definition help_lines {h : mss_h} (program_name : option string) : list output :=
  outputs (snd (print_help program_name initial_state)).

Section WithHeader.

Context {h : mss_h}.

Definition succeeded (code : Z) : bool := code =? MSS_SUCCESS.

(** The report [cmd_status] prints when started in state [s]. *)
Definition status_report (w : world) (s : state) : list output :=
  [ mk_output stdout "Status Report:\n" [];
    mk_output stdout "\n" [];
    installation_line (is_installed w) ] ++
  log_lines s (hs_messages (handshake w)) ++
  [ loading_line (succeeded (hs_result (handshake w)))
                 (hs_version (handshake w))
                 (status_cap_count (hs_capabilities (handshake w)));
    requirements_line (succeeded (result (check_requirements w)));
    mk_output stdout "\n" [] ].

(** The seven tests of [cmd_test], as steps of a tally. *)
Definition test_tally (capabilities : Z) : Z :=
  bump capabilities MSS_CAP_ANIM_TIME
 (bump capabilities MSS_CAP_SET_WINDOW
 (bump capabilities MSS_CAP_MOV_SPACE
 (bump capabilities MSS_CAP_REM_SPACE
 (bump capabilities MSS_CAP_ADD_SPACE
 (bump capabilities MSS_CAP_DPPM
 (bump capabilities MSS_CAP_DOCK_SPACES 0)))))).

(** What the argument loop of [main] hands back for given arguments. *)
Definition parsed (argv0 : option string) (rest : list string)
           (command : option string) : Z + option string :=
  fst (parse_args argv0 rest command initial_state).

(** The exit code of the four commands that wrap one library call. *)
Definition wrapper_code (r : lib_result) : Z :=
  if succeeded (result r) then 0 else 1.

(** The exit code of [test]. *)
Definition test_code (w : world) : Z :=
  if succeeded (hs_result (handshake w)) &&
     (test_cap_count (hs_capabilities (handshake w)) =? 7)
  then 0 else 1.

(** The exit code of each command word, once a context exists. *)
Definition command_code (w : world) (command : string) : Z :=
  if (command =? "check")%string then wrapper_code (check_requirements w)
  else if (command =? "install")%string then wrapper_code (install w)
  else if (command =? "load")%string then wrapper_code (load w)
  else if (command =? "uninstall")%string then wrapper_code (uninstall w)
  else if (command =? "status")%string then 0
  else if (command =? "test")%string then test_code w
  else 1.

(** The exit code of the process for given arguments. *)
Definition expected_exit (w : world) (argv : list string) : Z :=
  match parsed (nth_error argv 0) (tl argv) None with
  | inl code => code
  | inr None => 1
  | inr (Some command) =>
      if create_ok w then command_code w command else 1
  end.

(** The verbose flag after [k] stores of [true] into it. *)
Definition verbose_after (k : nat) (v : bool) : bool :=
  match k with O => v | S _ => true end.

(** [m] always returns [a], and changes the state only by printing and by
    storing [true] into the verbose flag. *)
Definition startup {A} (m : M A) (a : A) : Prop :=
  forall s, exists k l,
    m s = (a, mk_state (verbose_after k (g_verbose s)) (log_sink s)
                       (outputs s ++ l)
                       (stores s ++ repeat (store_g_verbose true) k)).

(** The globals are as they were, and nothing was stored into them. *)
Definition globals_untouched (s s' : state) : Prop :=
  g_verbose s' = g_verbose s /\ log_sink s' = log_sink s /\
  stores s' = stores s.

(** The stores [main] makes once the arguments are parsed, [v] being the
    verbose flag at that point. *)
Definition later_stores (w : world) (argv : list string) (v : bool) : list store :=
  match parsed (nth_error argv 0) (tl argv) None with
  | inr (Some command) =>
      store_log_callback log_callback_fn ::
      (if create_ok w && (command =? "status")%string
       then [store_g_verbose false; store_g_verbose v] else [])
  | _ => []
  end.

End WithHeader.

End Report.

(* ================================================================== *)
(** ** Concrete runs *)
(* ================================================================== *)

Module Examples.

Import Cli.

(** A header with the capability values of [common.h] and 0 for success. *)
Definition header : mss_h := common_mss_h 0.

(** Nothing is there: no bundle, no service answering, requirements unmet. *)
Definition absent_world : world :=
  mk_world (-1) "mss" true [] []
    (mk_lib_result (-1) ["Not running as root"])
    (mk_lib_result (-1) []) (mk_lib_result (-1) []) (mk_lib_result (-1) [])
    (mk_handshake_result (-1) 0 None ["Failed to connect"]).

(** Everything works: the service answers with all seven capabilities. *)
Definition healthy_world : world :=
  mk_world 0 "mss" true [] []
    (mk_lib_result 0 ["Running as root"])
    (mk_lib_result 0 []) (mk_lib_result 0 []) (mk_lib_result 0 [])
    (mk_handshake_result 0 0x7F (Some "2.1.23") ["Handshake ok"]).

(** The service answers, but without the animation-time capability. *)
Definition degraded_world : world :=
  mk_world 0 "mss" true [] []
    (mk_lib_result 0 ["Running as root"])
    (mk_lib_result 0 []) (mk_lib_result 0 []) (mk_lib_result 0 [])
    (mk_handshake_result 0 0x3F (Some "2.1.23") ["Handshake ok"]).

(** Bit 7 is not one of the seven capability flags. *)
Definition future_mask : Z := 0x80.

Definition fresh_process : Util.kstate := Util.mk_kstate [] 0.

(** Two systems on which connecting fails, for different reasons. *)
Definition os_no_such_file : Util.os :=
  Util.mk_os 0 0
    (fun _ _ _ => Util.mk_sysret 3 0)
    (fun _ _ => Util.mk_sysret (-1) 2)
    (fun _ _ => Util.mk_sysret 0 0)
    (fun _ => Util.mk_sysret 0 0).

Definition os_refused : Util.os :=
  Util.mk_os 501 501
    (fun _ _ _ => Util.mk_sysret 3 0)
    (fun _ _ => Util.mk_sysret (-1) 61)
    (fun _ _ => Util.mk_sysret 0 0)
    (fun _ => Util.mk_sysret 0 0).

Definition short_path : Util.cstring := list_byte_of_string "/tmp/mss.socket".

Definition long_path : Util.cstring := repeat "a"%byte 200.

(** The size of [sun_path] on macOS. *)
Definition macos_sun_path_size : nat := 104.

End Examples.

(* ================================================================== *)
(** ** Vocabulary for the behaviour of the command line *)
(* ================================================================== *)

Module Behaviour.

Import Cli Report.

(** The two spellings of the verbose option, and of the help option, as
    the argument loop of [main] compares them. *)
Definition is_verbose_opt (a : string) : bool :=
  (a =? "-v")%string || (a =? "--verbose")%string.

Definition is_help_opt (a : string) : bool :=
  (a =? "-h")%string || (a =? "--help")%string.

(** The arguments that are not verbose options. *)
Definition without_verbose (args : list string) : list string :=
  filter (fun a => negb (is_verbose_opt a)) args.

(** The command words [main] dispatches on. *)
Definition known_commands : list string :=
  ["check"; "install"; "load"; "uninstall"; "status"; "test"].

Definition on_stderr (o : output) : bool :=
  match out_stream o with stderr => true | stdout => false end.

Definition on_stdout (o : output) : bool := negb (on_stderr o).

(** What of some output went to stderr. *)
Definition stderr_of (l : list output) : list output := filter on_stderr l.

(** Nothing on stderr when the code is 0. *)
Definition quiet_success (code : Z) (l : list output) : Prop :=
  code = 0 -> stderr_of l = [].

(** Whatever state [m] starts in, it appends some [l] to the output, and
    [P] holds of the value it returns and [l]. *)
Definition prints {A} (m : M A) (P : A -> list output -> Prop) : Prop :=
  forall s, exists l,
    outputs (snd (m s)) = outputs s ++ l /\ P (fst (m s)) l.

(** [m] and [m'], started in states related by [R], return the same value
    and end in states related by [R]. *)
Definition related {A} (R : state -> state -> Prop) (m m' : M A) : Prop :=
  forall s s', R s s' -> fst (m s) = fst (m' s') /\ R (snd (m s)) (snd (m' s')).

(** Two states that differ at most in the record of past stores. *)
Definition same_visible (s s' : state) : Prop :=
  g_verbose s = g_verbose s' /\ log_sink s = log_sink s' /\
  outputs s = outputs s'.

(** The same state, with the verbose flag clear. *)
Definition same_quiet (s s' : state) : Prop :=
  s = s' /\ g_verbose s = false.

(** A library call that logs nothing. *)
Definition mute (r : lib_result) : lib_result := mk_lib_result (result r) [].

(** The world in which the library logs nothing, and all else is as in
    [w]. *)
Definition silence (w : world) : world :=
  mk_world (stat_osax w) (progname w) (create_ok w) [] []
    (mute (check_requirements w)) (mute (install w)) (mute (load w))
    (mute (uninstall w))
    (mk_handshake_result (hs_result (handshake w))
       (hs_capabilities (handshake w)) (hs_version (handshake w)) []).

(** The arguments with all verbose options replaced by one in front, if
    there was any. *)
Definition verbose_first (args : list string) : list string :=
  (if existsb is_verbose_opt args then ["-v"] else []) ++ without_verbose args.

(** The capabilities [cmd_test] tests for, in the order it tests them,
    each with the line it prints. *)
Definition capability_table {h : mss_h} : list (Z * string) :=
  [ (MSS_CAP_DOCK_SPACES, "    ✓ Dock Spaces\n");
    (MSS_CAP_DPPM,        "    ✓ Desktop Picture Manager\n");
    (MSS_CAP_ADD_SPACE,   "    ✓ Add Space\n");
    (MSS_CAP_REM_SPACE,   "    ✓ Remove Space\n");
    (MSS_CAP_MOV_SPACE,   "    ✓ Move Space\n");
    (MSS_CAP_SET_WINDOW,  "    ✓ Set Window\n");
    (MSS_CAP_ANIM_TIME,   "    ✓ Animation Time\n") ].

(** The lines for the capabilities a mask has. *)
Definition capability_lines {h : mss_h} (capabilities : Z) : list output :=
  map (fun entry => mk_output stdout (snd entry) [])
      (filter (fun entry => truthy (Z.land capabilities (fst entry)))
              capability_table).

(** The verbose options the argument loop of [main] comes to before it
    returns.  The loop passes over verbose options; it returns at the first
    other argument that starts with '-' (a help option or an unknown one)
    and at the second command word.  [seen] says whether a command word
    came before. *)
Fixpoint verbose_reached (args : list string) (seen : bool) : nat :=
  match args with
  | [] => O
  | a :: args' =>
      if is_verbose_opt a then S (verbose_reached args' seen)
      else if starts_with_dash a then O
      else if seen then O
      else verbose_reached args' true
  end.

(** The command word a run gets to dispatch on: the arguments other than
    verbose options are that one word. *)
Definition command_of (args : list string) : option string :=
  match without_verbose args with
  | [c] => if starts_with_dash c then None else Some c
  | _ => None
  end.

(** The stores into the log sink and the verbose flag that follow the
    argument loop, for the arguments after [argv[0]]; [v] is the verbose
    flag when the loop has ended. *)
Definition stores_after_startup (w : world) (args : list string) (v : bool)
  : list store :=
  match command_of args with
  | Some command =>
      store_log_callback log_callback_fn ::
      (if create_ok w && (command =? "status")%string
       then [store_g_verbose false; store_g_verbose v] else [])
  | None => []
  end.

(** The world [w] with other messages logged by the requirements check. *)
Definition with_check_messages (w : world) (msgs : list string) : world :=
  mk_world (stat_osax w) (progname w) (create_ok w) (create_messages w)
    (destroy_messages w)
    (mk_lib_result (result (check_requirements w)) msgs)
    (install w) (load w) (uninstall w) (handshake w).

(** What [cmd_status] has printed when it comes to the requirements
    check. *)
Definition status_before_check {h : mss_h} (w : world) (s : state)
  : list output :=
  [ mk_output stdout "Status Report:\n" [];
    mk_output stdout "\n" [];
    installation_line (is_installed w) ] ++
  log_lines s (hs_messages (handshake w)) ++
  [ loading_line (succeeded (hs_result (handshake w)))
                 (hs_version (handshake w))
                 (status_cap_count (hs_capabilities (handshake w))) ].

(** What [cmd_test] prints when started in state [s]. *)
Definition test_report {h : mss_h} (w : world) (s : state) : list output :=
  mk_output stdout "Testing scripting addition...\n" [] ::
  log_lines s (hs_messages (handshake w)) ++
  (if succeeded (hs_result (handshake w)) then
     [ mk_output stdout "✓ Handshake successful\n" [];
       mk_output stdout "  Version: %s\n" [arg_str (hs_version (handshake w))];
       mk_output stdout "  Capabilities:\n" [] ] ++
     capability_lines (hs_capabilities (handshake w)) ++
     mk_output stdout "\n" [] ::
     (if test_cap_count (hs_capabilities (handshake w)) =? 7 then
        [ mk_output stdout
            "✓ Scripting addition is working correctly (%d/%d capabilities)\n"
            [arg_int (test_cap_count (hs_capabilities (handshake w)));
             arg_int 7] ]
      else
        [ mk_output stdout "⚠ Warning: Only %d/%d capabilities available\n"
            [arg_int (test_cap_count (hs_capabilities (handshake w)));
             arg_int 7];
          mk_output stdout
            "  This may indicate compatibility issues with your macOS version\n"
            [] ])
   else
     error_lines "Handshake failed - scripting addition not loaded" [] ++
     [ mk_output stdout "\nTry running: sudo %s load\n"
         [arg_str (Some (progname w))] ]).

End Behaviour.

Module MoreExamples.

Import Cli.

(** Two worlds in which no context can be created, and which differ in
    everything else. *)
Definition no_context_world : world :=
  mk_world 0 "mss" false ["Out of memory"] []
    (mk_lib_result 0 []) (mk_lib_result 0 []) (mk_lib_result 0 [])
    (mk_lib_result 0 [])
    (mk_handshake_result 0 0x7F (Some "2.1.23") []).

Definition other_no_context_world : world :=
  mk_world (-1) "mss-dev" false ["Out of memory"] ["Bye"]
    (mk_lib_result (-1) ["Not running as root"]) (mk_lib_result (-1) [])
    (mk_lib_result (-1) []) (mk_lib_result (-1) [])
    (mk_handshake_result (-1) 0 None ["Failed to connect"]).

End MoreExamples.

(* ================================================================== *)
(** ** common.h: capability flags and opcodes *)
(* ================================================================== *)

Section CommonFacts.

Import Common.

Lemma osax_attribs_single_bit : Forall single_bit osax_attribs.
Proof.
  unfold osax_attribs.
  repeat constructor; unfold single_bit.
  - exists 0; split; [lia | reflexivity].
  - exists 1; split; [lia | reflexivity].
  - exists 2; split; [lia | reflexivity].
  - exists 3; split; [lia | reflexivity].
  - exists 4; split; [lia | reflexivity].
  - exists 5; split; [lia | reflexivity].
  - exists 6; split; [lia | reflexivity].
Qed.

Lemma osax_attribs_disjoint :
  ForallOrdPairs (fun a b => Z.land a b = 0) osax_attribs.
Proof.
  unfold osax_attribs.
  repeat (constructor; [repeat constructor |]).
  constructor.
Qed.

Lemma osax_attribs_distinct : NoDup osax_attribs.
Proof.
  unfold osax_attribs.
  repeat (constructor; [cbn; intuition discriminate |]).
  constructor.
Qed.

(** C5. There are exactly seven capability flags; each is a single bit; no
    two are equal and no two share a bit; their union is OSAX_ATTRIB_ALL,
    which is 0x7F. *)
Theorem capability_flags_seven_single_disjoint_bits :
  List.length osax_attribs = 7%nat /\
  Forall single_bit osax_attribs /\
  NoDup osax_attribs /\
  ForallOrdPairs (fun a b => Z.land a b = 0) osax_attribs /\
  fold_right Z.lor 0 osax_attribs = OSAX_ATTRIB_ALL /\
  OSAX_ATTRIB_ALL = 0x7F.
Proof.
  split; [reflexivity |].
  split; [exact osax_attribs_single_bit |].
  split; [exact osax_attribs_distinct |].
  split; [exact osax_attribs_disjoint |].
  split; reflexivity.
Qed.

Lemma all_opcodes_complete : forall op, In op all_opcodes.
Proof. destruct op; cbn; tauto. Qed.

Lemma opcode_value_injective :
  forall a b, opcode_value a = opcode_value b -> a = b.
Proof. destruct a, b; intro H; try reflexivity; discriminate H. Qed.

Lemma opcode_value_range : forall op, 0x01 <= opcode_value op <= 0x1E.
Proof. destruct op; cbn; lia. Qed.

(** C6. The opcodes have pairwise distinct numeric codes, and every code
    lies between 0x01 and 0x1E inclusive. *)
Theorem opcode_values_distinct_in_range :
  (forall a b : sa_opcode, a <> b -> opcode_value a <> opcode_value b) /\
  NoDup (map opcode_value all_opcodes) /\
  (forall op : sa_opcode, In op all_opcodes /\ 0x01 <= opcode_value op <= 0x1E).
Proof.
  split; [| split].
  - intros a b Hab Hv. apply Hab, opcode_value_injective, Hv.
  - cbn. repeat (constructor; [cbn; intuition discriminate |]). constructor.
  - intro op. split; [apply all_opcodes_complete | apply opcode_value_range].
Qed.

End CommonFacts.

(* ================================================================== *)
(** ** util.h: sockets and privilege *)
(* ================================================================== *)

Section UtilFacts.

Import Util.

Lemma call_run (o : os) (c : syscall) (k : kstate) :
  call o c k =
  (ret_val (answer o c),
   mk_kstate (calls k ++ [c])
             (if ret_val (answer o c) =? -1 then ret_errno (answer o c)
              else errno k)).
Proof. reflexivity. Qed.

(** *** socket_connect: one kind of failure *)

Lemma socket_connect_result (n : nat) (o : os) (sockfd : Z) (path : cstring)
      (k : kstate) :
  fst (socket_connect n o sockfd path k) =
  negb (ret_val (os_connect o sockfd (socket_address_of n path)) =? -1).
Proof. reflexivity. Qed.

Lemma socket_connect_calls (n : nat) (o : os) (sockfd : Z) (path : cstring)
      (k : kstate) :
  calls (snd (socket_connect n o sockfd path k)) =
  calls k ++ [sys_connect sockfd (socket_address_of n path)].
Proof. reflexivity. Qed.

(** C7. Whatever the path and whatever made the connect call fail (the
    [errno] it leaves), [socket_connect] returns the same value, [false]:
    two failed attempts cannot be told apart by their results. *)
Theorem socket_connect_failures_collapse
        (n : nat) (o1 o2 : os) (fd1 fd2 : Z) (path1 path2 : cstring)
        (k1 k2 : kstate)
        (H1 : connect_fails o1 fd1 (socket_address_of n path1))
        (H2 : connect_fails o2 fd2 (socket_address_of n path2)) :
  fst (socket_connect n o1 fd1 path1 k1) = false /\
  fst (socket_connect n o2 fd2 path2 k2) = false /\
  fst (socket_connect n o1 fd1 path1 k1) = fst (socket_connect n o2 fd2 path2 k2).
Proof.
  unfold connect_fails in H1, H2.
  rewrite !socket_connect_result, H1, H2. repeat split; reflexivity.
Qed.

(** *** socket_close: shutdown, then close *)

(** C8. [socket_close] makes exactly two system calls on the descriptor,
    a shutdown of both directions and then a close, whatever either call
    returns. *)
Theorem socket_close_shutdown_then_close :
  forall (o : os) (sockfd : Z) (k : kstate),
    fst (socket_close o sockfd k) = tt /\
    calls (snd (socket_close o sockfd k)) =
    calls k ++ [sys_shutdown sockfd SHUT_RDWR; sys_close sockfd].
Proof.
  intros o sockfd k. unfold socket_close, bind, ret.
  rewrite !call_run. cbn [fst snd calls].
  split; [reflexivity |]. now rewrite <- app_assoc.
Qed.

(** *** is_root *)

Lemma is_root_value (o : os) (k : kstate) :
  fst (is_root o k) = (os_uid o =? 0) || (os_euid o =? 0).
Proof.
  unfold is_root, bind, ret. rewrite call_run. cbn [answer ret_val].
  destruct (os_uid o =? 0); [reflexivity |].
  rewrite call_run. reflexivity.
Qed.

(** C9. [is_root] is true exactly when the real or the effective user id
    is 0; an effective id of 0 is enough when the real id is not 0. *)
Theorem is_root_iff_uid_or_euid_zero :
  forall (o : os) (k : kstate),
    (fst (is_root o k) = true <-> os_uid o = 0 \/ os_euid o = 0) /\
    (os_euid o = 0 -> os_uid o <> 0 -> fst (is_root o k) = true).
Proof.
  intros o k. rewrite is_root_value, orb_true_iff, !Z.eqb_eq.
  split; [reflexivity | auto].
Qed.

(** *** socket_connect: the path copied into the address *)

Lemma skipn_repeat {A} (x : A) (m n : nat) :
  skipn m (repeat x n) = repeat x (n - m).
Proof.
  revert n; induction m as [| m IH]; intros [| n]; cbn; auto.
Qed.

Lemma In_firstn {A} (x : A) (m : nat) (l : list A) :
  In x (firstn m l) -> In x l.
Proof.
  revert l; induction m as [| m IH]; intros [| a l]; cbn; try tauto.
  intros [-> | H]; [now left | right; now apply IH].
Qed.

Lemma c_str_terminated (s : cstring) (rest : list cell) :
  nul_free s -> c_str (map Some (s ++ [x00]) ++ rest) = Some s.
Proof.
  unfold nul_free. induction s as [| b s IH]; intro Hs; [reflexivity |].
  cbn [map app c_str].
  destruct (Byte.eqb b x00) eqn:E.
  - apply Byte.byte_dec_bl in E. subst b. exfalso. apply Hs. now left.
  - rewrite IH; [reflexivity |]. intro Hin. apply Hs. now right.
Qed.

Lemma snprintf_written_length (n : nat) (s : cstring) :
  List.length (snprintf_written n s) = Nat.min n (S (List.length s)).
Proof.
  destruct n as [| m]; [reflexivity |].
  cbn [snprintf_written]. rewrite length_app, length_firstn. cbn. lia.
Qed.

Lemma snprintf_s_written (buf : list cell) (n : nat) (s : cstring) :
  fst (snprintf_s buf n s) =
  map Some (snprintf_written n s) ++
  skipn (List.length (snprintf_written n s)) buf.
Proof.
  destruct n as [| m]; [reflexivity |].
  cbn [snprintf_s snprintf_written fst]. now rewrite length_map.
Qed.

Lemma socket_address_path (n : nat) (path : cstring) :
  sun_path (socket_address_of n path) =
  map Some (snprintf_written n path) ++
  repeat None (n - List.length (snprintf_written n path)).
Proof.
  unfold socket_address_of. cbn [sun_path sun_family].
  now rewrite snprintf_s_written, skipn_repeat.
Qed.

(** C10. [socket_connect] stores at most [sizeof(sun_path)] bytes in the
    path field, the last of them a NUL, and the field keeps its size; the
    connect call is made on the address whose path is the first
    [sizeof(sun_path) - 1] bytes of the argument, which is the whole
    argument when it fits and a proper prefix of it when it does not. *)
Theorem socket_connect_path_bounded
        (n : nat) (o : os) (sockfd : Z) (path : cstring) (k : kstate)
        (Hn : (0 < n)%nat) (Hp : nul_free path) :
  let address := socket_address_of n path in
  (List.length (snprintf_written n path) <= n)%nat /\
  last (snprintf_written n path) x01 = x00 /\
  sun_path address =
    map Some (snprintf_written n path) ++
    repeat None (n - List.length (snprintf_written n path)) /\
  List.length (sun_path address) = n /\
  c_str (sun_path address) = Some (firstn (n - 1) path) /\
  calls (snd (socket_connect n o sockfd path k)) =
    calls k ++ [sys_connect sockfd address] /\
  fst (socket_connect n o sockfd path k) =
    negb (ret_val (os_connect o sockfd address) =? -1) /\
  ((List.length path < n)%nat -> firstn (n - 1) path = path) /\
  ((n <= List.length path)%nat ->
     (List.length (firstn (n - 1) path) < List.length path)%nat).
Proof.
  intro address. subst address.
  pose proof (snprintf_written_length n path) as Hlen.
  split; [lia |].
  split.
  { destruct n as [| m]; [lia |]. cbn [snprintf_written]. apply last_last. }
  split; [apply socket_address_path |].
  split.
  { rewrite socket_address_path, length_app, length_map, repeat_length. lia. }
  split.
  { rewrite socket_address_path.
    destruct n as [| m]; [lia |]. cbn [snprintf_written].
    replace (S m - 1)%nat with m by lia.
    apply c_str_terminated. intro Hin. apply Hp. eapply In_firstn, Hin. }
  split; [apply socket_connect_calls |].
  split; [apply socket_connect_result |].
  split.
  - intro Hfit. apply firstn_all2. lia.
  - intro Hlong. rewrite length_firstn. lia.
Qed.

End UtilFacts.

(* ================================================================== *)
(** ** cli.c: the capability count *)
(* ================================================================== *)

Section CapabilityCount.

Import Cli Report.

(** The loop looks at the seven low bits only. *)
Lemma status_cap_count_low_bits (c : Z) :
  status_cap_count c = status_cap_count (Z.land c 0x7F).
Proof.
  unfold status_cap_count. cbn [seq map fold_left Z.of_nat Pos.of_succ_nat Pos.succ].
  rewrite <- !Z.land_assoc. reflexivity.
Qed.

Lemma land_0x7F_range (c : Z) : 0 <= Z.land c 0x7F < 128.
Proof.
  change 0x7F with (Z.ones 7). rewrite Z.land_ones by lia.
  apply Z.mod_pos_bound. reflexivity.
Qed.

Lemma below_128_cases (P : Z -> bool) :
  forallb P (map Z.of_nat (seq 0 128)) = true ->
  forall r, 0 <= r < 128 -> P r = true.
Proof.
  intros H r Hr. rewrite forallb_forall in H. apply H.
  rewrite <- (Z2Nat.id r) by lia. apply in_map, in_seq. lia.
Qed.

Lemma status_cap_count_popcount_low (r : Z) :
  0 <= r < 128 -> status_cap_count r = popcount r.
Proof.
  intro Hr. apply Z.eqb_eq.
  apply (below_128_cases (fun r => status_cap_count r =? popcount r));
    [vm_compute; reflexivity | exact Hr].
Qed.

Lemma status_cap_count_popcount (c : Z) :
  status_cap_count c = popcount (Z.land c 0x7F).
Proof.
  rewrite status_cap_count_low_bits.
  apply status_cap_count_popcount_low, land_0x7F_range.
Qed.

End CapabilityCount.

(* ================================================================== *)
(** ** cli.c: code that only prints *)
(* ================================================================== *)

Section OutputsOnly.

Import Cli Report.

Lemma emit_nil (s : state) : emit s [] = s.
Proof. destruct s. unfold emit. cbn. now rewrite app_nil_r. Qed.

Lemma emit_emit (s : state) (l1 l2 : list output) :
  emit (emit s l1) l2 = emit s (l1 ++ l2).
Proof. unfold emit. cbn. now rewrite app_assoc. Qed.

Lemma fprintf_run (f : stream) (format : string) (args : list arg) (s : state) :
  fprintf f format args s = (tt, emit s [mk_output f format args]).
Proof. reflexivity. Qed.

Lemma oo_ret {A} (a : A) : outputs_only (ret a) a.
Proof. intro s. exists []. now rewrite emit_nil. Qed.

Lemma oo_bind {A B} (m : M A) (f : A -> M B) (a : A) (b : B) :
  outputs_only m a -> outputs_only (f a) b -> outputs_only (bind m f) b.
Proof.
  intros Hm Hf s. destruct (Hm s) as [l1 E1].
  destruct (Hf (emit s l1)) as [l2 E2].
  exists (l1 ++ l2). unfold bind. now rewrite E1, E2, emit_emit.
Qed.

Lemma oo_read {B} (f : bool -> M B) (b : B) :
  (forall v, outputs_only (f v) b) -> outputs_only (bind read_g_verbose f) b.
Proof. intros Hf s. unfold bind, read_g_verbose. apply Hf. Qed.

Lemma oo_fprintf (f : stream) (format : string) (args : list arg) :
  outputs_only (fprintf f format args) tt.
Proof. intro s. eexists. apply fprintf_run. Qed.

Lemma oo_printf (format : string) (args : list arg) :
  outputs_only (printf format args) tt.
Proof. apply oo_fprintf. Qed.

Lemma oo_when (c : bool) (m : M unit) :
  outputs_only m tt -> outputs_only (when c m) tt.
Proof. destruct c; [trivial | intros _; apply oo_ret]. Qed.

Lemma oo_if {A} (c : bool) (m1 m2 : M A) (a1 a2 : A) :
  outputs_only m1 a1 -> outputs_only m2 a2 ->
  outputs_only (if c then m1 else m2) (if c then a1 else a2).
Proof. destruct c; trivial. Qed.

Section WithHeader.

Context {h : mss_h}.

Lemma oo_print_quiet (format : string) (args : list arg) :
  outputs_only (print_quiet format args) tt.
Proof. apply oo_fprintf. Qed.

Lemma oo_print_error (format : string) (args : list arg) :
  outputs_only (print_error format args) tt.
Proof.
  unfold print_error. repeat (eapply oo_bind; [apply oo_fprintf |]).
  apply oo_fprintf.
Qed.

Lemma oo_print_help (program_name : option string) :
  outputs_only (print_help program_name) tt.
Proof.
  unfold print_help. repeat (eapply oo_bind; [apply oo_printf |]).
  apply oo_printf.
Qed.

Lemma oo_log_callback (message : string) :
  outputs_only (log_callback message) tt.
Proof. unfold log_callback. apply oo_read. intro v. apply oo_when, oo_printf. Qed.

(** What the library's messages add to the output. *)
Lemma library_logs_run (msgs : list string) (s : state) :
  library_logs msgs s = (tt, emit s (log_lines s msgs)).
Proof.
  unfold library_logs, log_lines.
  revert s; induction msgs as [| m msgs IH]; intro s; cbn [for_each].
  - unfold ret.
    destruct (log_sink s) as [[] |]; [destruct (g_verbose s) |];
      cbn [map]; now rewrite emit_nil.
  - unfold bind at 1.
    destruct (log_sink s) as [[] |] eqn:Es.
    + cbn [invoke]. unfold log_callback, bind, read_g_verbose, when.
      destruct (g_verbose s) eqn:Ev.
      * unfold printf. rewrite fprintf_run, IH. cbn [emit log_sink g_verbose].
        rewrite Es, Ev. unfold emit. cbn. now rewrite <- app_assoc.
      * unfold ret. rewrite IH, Es, Ev. reflexivity.
    + rewrite IH, Es. reflexivity.
Qed.

Lemma oo_library_logs (msgs : list string) : outputs_only (library_logs msgs) tt.
Proof. intro s. eexists. apply library_logs_run. Qed.

Lemma oo_lib_call (r : lib_result) : outputs_only (lib_call r) (result r).
Proof.
  unfold lib_call. eapply oo_bind; [apply oo_library_logs | apply oo_ret].
Qed.

Lemma oo_mss_handshake (w : world) :
  outputs_only (mss_handshake w)
    (hs_result (handshake w), hs_capabilities (handshake w),
     hs_version (handshake w)).
Proof.
  unfold mss_handshake. eapply oo_bind; [apply oo_library_logs | apply oo_ret].
Qed.

Lemma oo_mss_create (w : world) : outputs_only (mss_create w) (create_ok w).
Proof.
  unfold mss_create. eapply oo_bind; [apply oo_library_logs | apply oo_ret].
Qed.

Lemma oo_mss_destroy (w : world) : outputs_only (mss_destroy w) tt.
Proof. apply oo_library_logs. Qed.

End WithHeader.

End OutputsOnly.

(* ================================================================== *)
(** ** cli.c: the command handlers *)
(* ================================================================== *)

Section Commands.

Import Cli Report.

Context {h : mss_h}.

Ltac oo_step :=
  cbv beta;
  lazymatch goal with
  | |- outputs_only (ret _) _ => apply oo_ret
  | |- outputs_only (printf _ _) _ => apply oo_printf
  | |- outputs_only (print_quiet _ _) _ => apply oo_print_quiet
  | |- outputs_only (print_error _ _) _ => apply oo_print_error
  | |- outputs_only (print_help _) _ => apply oo_print_help
  | |- outputs_only (when _ _) _ => apply oo_when
  | |- outputs_only (lib_call _) _ => apply oo_lib_call
  | |- outputs_only (mss_handshake _) _ => apply oo_mss_handshake
  | |- outputs_only (mss_create _) _ => apply oo_mss_create
  | |- outputs_only (mss_destroy _) _ => apply oo_mss_destroy
  | |- outputs_only (bind read_g_verbose _) _ => apply oo_read; intro
  | |- outputs_only (bind _ _) _ => eapply oo_bind
  | |- outputs_only (if ?c then _ else _) _ => destruct c eqn:?
  end.

Ltac oo := repeat oo_step.

Lemma oo_test_cap (c flag : Z) (line : string) (n : Z) :
  outputs_only (test_cap c flag line n) (bump c flag n).
Proof. unfold test_cap, bump. oo. Qed.

Lemma oo_test_caps (c : Z) : outputs_only (test_caps c) (test_tally c).
Proof.
  unfold test_caps, test_tally.
  eapply oo_bind; [apply oo_ret |].
  repeat (eapply oo_bind; [apply oo_test_cap |]).
  apply oo_ret.
Qed.

Lemma test_cap_count_tally (c : Z) : test_cap_count c = test_tally c.
Proof.
  unfold test_cap_count.
  destruct (oo_test_caps c initial_state) as [l E]. now rewrite E.
Qed.

(** The tally of [cmd_test] does not depend on the state it runs in. *)
Lemma test_caps_value (c : Z) (s : state) :
  fst (test_caps c s) = test_cap_count c.
Proof.
  rewrite test_cap_count_tally.
  destruct (oo_test_caps c s) as [l E]. now rewrite E.
Qed.

Lemma status_cap_count_tally (c : Z) :
  status_cap_count c =
  bump c 0x40 (bump c 0x20 (bump c 0x10 (bump c 0x08 (bump c 0x04
    (bump c 0x02 (bump c 0x01 0)))))).
Proof. reflexivity. Qed.

(** With the capability constants of [common.h], the seven tests of
    [cmd_test] count what the loop of [cmd_status] counts. *)
Lemma test_cap_count_status (c : Z) :
  caps_of_common h -> test_cap_count c = status_cap_count c.
Proof.
  intros (H1 & H2 & H3 & H4 & H5 & H6 & H7).
  rewrite test_cap_count_tally, status_cap_count_tally. unfold test_tally.
  rewrite H1, H2, H3, H4, H5, H6, H7. reflexivity.
Qed.

Lemma oo_cmd_check (w : world) :
  outputs_only (cmd_check w) (wrapper_code (check_requirements w)).
Proof.
  unfold cmd_check, mss_check_requirements, wrapper_code, succeeded. oo.
Qed.

Lemma oo_cmd_install (w : world) :
  outputs_only (cmd_install w) (wrapper_code (install w)).
Proof. unfold cmd_install, mss_install, wrapper_code, succeeded. oo. Qed.

Lemma oo_cmd_load (w : world) :
  outputs_only (cmd_load w) (wrapper_code (load w)).
Proof. unfold cmd_load, mss_load, wrapper_code, succeeded. oo. Qed.

Lemma oo_cmd_uninstall (w : world) :
  outputs_only (cmd_uninstall w) (wrapper_code (uninstall w)).
Proof. unfold cmd_uninstall, mss_uninstall, wrapper_code, succeeded. oo. Qed.

Lemma oo_cmd_test (w : world) : outputs_only (cmd_test w) (test_code w).
Proof.
  unfold cmd_test, test_code, succeeded.
  eapply oo_bind; [apply oo_printf |].
  eapply oo_bind; [apply oo_mss_handshake |].
  cbv beta iota.
  destruct (hs_result (handshake w) =? MSS_SUCCESS); cbn [negb andb]; [| oo].
  do 3 (eapply oo_bind; [apply oo_printf |]).
  eapply oo_bind; [apply oo_test_caps |].
  rewrite test_cap_count_tally.
  oo.
Qed.

(** The whole effect of [cmd_status]. *)
Lemma cmd_status_run (w : world) (s : state) :
  cmd_status w s =
  (0, mk_state (g_verbose s) (log_sink s)
               (outputs s ++ status_report w s)
               (stores s ++ [store_g_verbose false; store_g_verbose (g_verbose s)])).
Proof.
  unfold cmd_status, mss_handshake, mss_check_requirements, lib_call.
  unfold bind, printf, read_g_verbose, write_g_verbose.
  rewrite !fprintf_run.
  assert (Hi : forall s0,
             (if is_installed w
              then fprintf stdout "Installation: ✓ Installed at /Library/ScriptingAdditions/mss.osax\n" []
              else fprintf stdout "Installation: ✗ Not installed\n" []) s0
             = (tt, emit s0 [installation_line (is_installed w)])).
  { intro s0. destruct (is_installed w); reflexivity. }
  rewrite Hi, library_logs_run. unfold ret. cbv beta iota.
  assert (Hl : forall s0,
             (if hs_result (handshake w) =? MSS_SUCCESS
              then fprintf stdout "Loading:      ✓ Loaded (version %s, %d/%d capabilities)\n"
                     [arg_str (hs_version (handshake w));
                      arg_int (status_cap_count (hs_capabilities (handshake w)));
                      arg_int 7]
              else fprintf stdout "Loading:      ✗ Not loaded\n" []) s0
             = (tt, emit s0 [loading_line (succeeded (hs_result (handshake w)))
                               (hs_version (handshake w))
                               (status_cap_count (hs_capabilities (handshake w)))])).
  { intro s0. unfold succeeded.
    destruct (hs_result (handshake w) =? MSS_SUCCESS); reflexivity. }
  rewrite Hl. cbn [emit g_verbose log_sink outputs stores].
  rewrite library_logs_run. cbv beta iota.
  assert (Hr : forall s0,
             (if result (check_requirements w) =? MSS_SUCCESS
              then fprintf stdout "Requirements: ✓ All requirements met\n" []
              else fprintf stdout "Requirements: ✗ Not met (run 'check' for details)\n" []) s0
             = (tt, emit s0 [requirements_line (succeeded (result (check_requirements w)))])).
  { intro s0. unfold succeeded.
    destruct (result (check_requirements w) =? MSS_SUCCESS); reflexivity. }
  rewrite Hr. cbv beta iota. rewrite fprintf_run.
  unfold emit, status_report, log_lines. cbn [g_verbose log_sink outputs stores].
  f_equal. f_equal.
  - destruct (log_sink s) as [[] |]; rewrite ?app_nil_r;
      repeat rewrite <- app_assoc; reflexivity.
  - now rewrite <- app_assoc.
Qed.

End Commands.

(* ================================================================== *)
(** ** cli.c: main *)
(* ================================================================== *)

Section Main.

Import Cli Report.

Context {h : mss_h}.

Lemma oo_value {A} (m : M A) (a : A) (s : state) :
  outputs_only m a -> fst (m s) = a.
Proof. intro H. destruct (H s) as [l E]. now rewrite E. Qed.

Lemma oo_globals {A} (m : M A) (a : A) (s : state) :
  outputs_only m a -> globals_untouched s (snd (m s)).
Proof.
  intro H. destruct (H s) as [l E]. rewrite E. repeat split.
Qed.

Lemma startup_of_oo {A} (m : M A) (a : A) : outputs_only m a -> startup m a.
Proof.
  intros H s. destruct (H s) as [l E]. exists 0%nat, l.
  rewrite E. unfold emit. cbn. now rewrite app_nil_r.
Qed.

Lemma startup_bind {A B} (m : M A) (f : A -> M B) (a : A) (b : B) :
  startup m a -> startup (f a) b -> startup (bind m f) b.
Proof.
  intros Hm Hf s. destruct (Hm s) as (k1 & l1 & E1).
  match type of E1 with _ = (_, ?s1) => destruct (Hf s1) as (k2 & l2 & E2) end.
  exists (k1 + k2)%nat, (l1 ++ l2). unfold bind. rewrite E1, E2.
  cbn [g_verbose log_sink outputs stores].
  rewrite repeat_app, !app_assoc.
  destruct k1, k2; reflexivity.
Qed.

Lemma startup_write_true : startup (write_g_verbose true) tt.
Proof.
  intro s. exists 1%nat, []. unfold write_g_verbose. cbn. now rewrite app_nil_r.
Qed.

Ltac oo_step :=
  cbv beta;
  lazymatch goal with
  | |- outputs_only (ret _) _ => apply oo_ret
  | |- outputs_only (printf _ _) _ => apply oo_printf
  | |- outputs_only (print_error _ _) _ => apply oo_print_error
  | |- outputs_only (print_help _) _ => apply oo_print_help
  | |- outputs_only (mss_create _) _ => apply oo_mss_create
  | |- outputs_only (mss_destroy _) _ => apply oo_mss_destroy
  | |- outputs_only (cmd_check _) _ => apply oo_cmd_check
  | |- outputs_only (cmd_install _) _ => apply oo_cmd_install
  | |- outputs_only (cmd_load _) _ => apply oo_cmd_load
  | |- outputs_only (cmd_uninstall _) _ => apply oo_cmd_uninstall
  | |- outputs_only (cmd_test _) _ => apply oo_cmd_test
  | |- outputs_only (bind _ _) _ => eapply oo_bind
  | |- outputs_only (if ?c then _ else _) _ => destruct c eqn:?
  end.

Ltac oo := repeat oo_step.

Lemma parse_args_startup (argv0 : option string) (rest : list string) :
  forall command, exists r, startup (parse_args argv0 rest command) r.
Proof.
  induction rest as [| a rest IH]; intro command; cbn [parse_args].
  - eexists. apply startup_of_oo, oo_ret.
  - destruct ((a =? "-v")%string || (a =? "--verbose")%string).
    { destruct (IH command) as [r Hr]. exists r.
      eapply startup_bind; [apply startup_write_true | exact Hr]. }
    destruct ((a =? "-h")%string || (a =? "--help")%string).
    { eexists. apply startup_of_oo. oo. }
    destruct (starts_with_dash a).
    { eexists. apply startup_of_oo. oo. }
    destruct command as [c |].
    + eexists. apply startup_of_oo. oo.
    + apply IH.
Qed.

Lemma parse_args_parsed (argv0 : option string) (rest : list string)
      (command : option string) :
  startup (parse_args argv0 rest command) (parsed argv0 rest command).
Proof.
  destruct (parse_args_startup argv0 rest command) as [r Hr].
  replace (parsed argv0 rest command) with r; [exact Hr |].
  unfold parsed. destruct (Hr initial_state) as (k & l & E). now rewrite E.
Qed.

(** The argument loop returns from [main] with 0 or 1 only. *)
Lemma parsed_code (argv0 : option string) (rest : list string) :
  forall command code,
    parsed argv0 rest command = inl code -> code = 0 \/ code = 1.
Proof.
  unfold parsed.
  induction rest as [| a rest IH]; intros command code; cbn [parse_args].
  - discriminate.
  - destruct ((a =? "-v")%string || (a =? "--verbose")%string).
    { unfold bind at 1. cbn [write_g_verbose].
      pose proof (parse_args_parsed argv0 rest command) as Hs.
      match goal with
      | |- fst (parse_args _ _ _ ?s1) = _ -> _ =>
          destruct (Hs s1) as (k & l & E); rewrite E
      end.
      pose proof (IH command code) as IH'.
      destruct (Hs initial_state) as (k0 & l0 & E0). rewrite E0 in IH'.
      exact IH'. }
    destruct ((a =? "-h")%string || (a =? "--help")%string).
    { rewrite (oo_value _ (inl 0)) by oo. intros [= <-]. now left. }
    destruct (starts_with_dash a).
    { rewrite (oo_value _ (inl 1)) by oo. intros [= <-]. now right. }
    destruct command as [c |].
    + rewrite (oo_value _ (inl 1)) by oo. intros [= <-]. now right.
    + apply IH.
Qed.

Lemma dispatch_status (w : world) (argv0 : option string) (command : string) :
  (command =? "status")%string = true ->
  dispatch w argv0 command = cmd_status w /\ command_code w command = 0.
Proof. intro H. apply String.eqb_eq in H. subst command. split; reflexivity. Qed.

Lemma oo_dispatch (w : world) (argv0 : option string) (command : string) :
  (command =? "status")%string = false ->
  outputs_only (dispatch w argv0 command) (command_code w command).
Proof.
  intro H. unfold dispatch, command_code. rewrite H. oo.
Qed.

Lemma wrapper_code_range (r : lib_result) :
  wrapper_code r = 0 \/ wrapper_code r = 1.
Proof. unfold wrapper_code. destruct (succeeded _); auto. Qed.

Lemma command_code_range (w : world) (command : string) :
  command_code w command = 0 \/ command_code w command = 1.
Proof.
  unfold command_code, test_code.
  repeat match goal with
         | |- context [if ?c then _ else _] =>
             lazymatch c with
             | String.eqb _ _ => destruct c
             end
         end; auto using wrapper_code_range.
  destruct (_ && _); auto.
Qed.

(** The whole effect of [main] on the globals, with its exit code. *)
Lemma main_run (w : world) (argv : list string) :
  exists k l,
    run w argv =
    (expected_exit w argv,
     mk_state (verbose_after k false)
              (match parsed (nth_error argv 0) (tl argv) None with
               | inr (Some _) => Some log_callback_fn
               | _ => None
               end)
              l
              (repeat (store_g_verbose true) k ++
               later_stores w argv (verbose_after k false))).
Proof.
  unfold run, main, expected_exit, later_stores.
  set (argv0 := nth_error argv 0).
  unfold bind at 1.
  destruct (parse_args_parsed argv0 (tl argv) None initial_state)
    as (k & l & E).
  rewrite E. cbn [initial_state g_verbose log_sink outputs stores app].
  exists k.
  destruct (parsed argv0 (tl argv) None) as [code | [command |]];
    cbv beta iota.
  - exists l. unfold ret. now rewrite app_nil_r.
  - unfold bind at 1.
    cbn [mss_set_log_callback g_verbose log_sink outputs stores].
    unfold bind at 1.
    match goal with
    | |- context [mss_create w ?s2] =>
        destruct (oo_mss_create w s2) as [l3 E3]; rewrite E3
    end.
    unfold emit. cbn [g_verbose log_sink outputs stores].
    destruct (create_ok w); cbn [negb andb].
    + destruct (command =? "status")%string eqn:Hst.
      * destruct (dispatch_status w argv0 command Hst) as [Hd Hc].
        rewrite Hd, Hc. unfold bind at 1. rewrite cmd_status_run.
        cbn [g_verbose log_sink outputs stores].
        unfold bind at 1.
        match goal with
        | |- context [mss_destroy w ?s4] =>
            destruct (oo_mss_destroy w s4) as [l5 E5]; rewrite E5
        end.
        unfold ret, emit. cbn [g_verbose log_sink outputs stores].
        eexists. f_equal. f_equal. now rewrite <- app_assoc.
      * unfold bind at 1.
        match goal with
        | |- context [dispatch w argv0 command ?s3] =>
            destruct (oo_dispatch w argv0 command Hst s3) as [l4 E4]; rewrite E4
        end.
        unfold bind at 1.
        match goal with
        | |- context [mss_destroy w ?s4] =>
            destruct (oo_mss_destroy w s4) as [l5 E5]; rewrite E5
        end.
        unfold ret, emit. cbn [g_verbose log_sink outputs stores].
        eexists. reflexivity.
    + assert (Hoo : outputs_only
                      (print_error "Failed to create context" [] ;;; ret 1)%c 1)
        by oo.
      match goal with
      | |- exists _, _ ?s3 = _ => destruct (Hoo s3) as [l4 E4]; rewrite E4
      end.
      eexists. reflexivity.
  - assert (Hoo : outputs_only
                    (print_error "No command specified" [] ;;;
                     printf "\n" [] ;;; print_help argv0 ;;; ret 1)%c 1)
      by oo.
    match goal with
    | |- exists _, _ ?s1 = _ => destruct (Hoo s1) as [l2 E2]; rewrite E2
    end.
    eexists. unfold emit. cbn [g_verbose log_sink outputs stores].
    now rewrite app_nil_r.
Qed.

End Main.

(* ================================================================== *)
(** ** Checks on concrete inputs *)
(* ================================================================== *)

Section Checks.

Import Cli Report Examples.

Example status_cap_count_all : status_cap_count 0x7F = 7.
Proof. reflexivity. Qed.

Example status_cap_count_degraded : status_cap_count 0x3F = 6.
Proof. reflexivity. Qed.

Example test_cap_count_all : @test_cap_count header 0x7F = 7.
Proof. reflexivity. Qed.

Example popcount_0x7F : popcount 0x7F = 7.
Proof. reflexivity. Qed.

Example exit_healthy_test : @exit_code header healthy_world ["mss"; "test"] = 0.
Proof. vm_compute. reflexivity. Qed.

Example exit_degraded_test : @exit_code header degraded_world ["mss"; "test"] = 1.
Proof. vm_compute. reflexivity. Qed.

Example exit_help : @exit_code header absent_world ["mss"; "--help"] = 0.
Proof. vm_compute. reflexivity. Qed.

Example exit_no_command : @exit_code header healthy_world ["mss"; "-v"] = 1.
Proof. vm_compute. reflexivity. Qed.

Example exit_unknown_command : @exit_code header healthy_world ["mss"; "reload"] = 1.
Proof. vm_compute. reflexivity. Qed.

Example exit_two_commands :
  @exit_code header healthy_world ["mss"; "check"; "test"] = 1.
Proof. vm_compute. reflexivity. Qed.

Example close_after_failed_connect :
  Util.calls (snd (Util.socket_close os_refused 3 fresh_process)) =
  [Util.sys_shutdown 3 Util.SHUT_RDWR; Util.sys_close 3].
Proof. reflexivity. Qed.

End Checks.

(* ================================================================== *)
(** ** The verbose flag and the log sink *)
(* ================================================================== *)

Section Globals.

Import Cli Report Examples.

(** C1, as stated, fails: run as [mss -v status], the process stores into
    the verbose flag twice after the log sink is registered, and the
    requirements message the library logs meanwhile is not printed
    although the run is verbose. *)
Lemma status_stores_into_verbose_flag :
  stores (snd (@run header healthy_world ["mss"; "-v"; "status"])) =
    [ store_g_verbose true; store_log_callback log_callback_fn;
      store_g_verbose false; store_g_verbose true ] /\
  outputs (snd (@run header healthy_world ["mss"; "-v"; "status"])) =
    [ mk_output stdout "Status Report:\n" [];
      mk_output stdout "\n" [];
      mk_output stdout "Installation: ✓ Installed at /Library/ScriptingAdditions/mss.osax\n" [];
      mk_output stdout "[mss] %s\n" [arg_str (Some "Handshake ok")];
      mk_output stdout "Loading:      ✓ Loaded (version %s, %d/%d capabilities)\n"
                [arg_str (Some "2.1.23"); arg_int 7; arg_int 7];
      mk_output stdout "Requirements: ✓ All requirements met\n" [];
      mk_output stdout "\n" [] ] /\
  outputs (snd (@run header healthy_world ["mss"; "-v"; "check"])) =
    [ mk_output stdout "[mss] %s\n" [arg_str (Some "Running as root")];
      mk_output stdout "✓ All system requirements met\n" [] ].
Proof. repeat split; vm_compute; reflexivity. Qed.

End Globals.

(* ================================================================== *)
(** ** The capability count *)
(* ================================================================== *)

Section CountClaims.

Import Cli Report Examples.

(** C2, as stated, fails: a 32-bit mask with bit 7 set has population
    count 1, and both tallies count 0. *)
Lemma cap_count_misses_unknown_bit :
  uint32 future_mask /\
  popcount future_mask = 1 /\
  status_cap_count future_mask = 0 /\
  @test_cap_count header future_mask = 0.
Proof. repeat split; vm_compute; congruence. Qed.

End CountClaims.

(* ================================================================== *)
(** ** Status reports and exit codes *)
(* ================================================================== *)

Section ExitCodes.

Import Cli Report Examples.

(** C3. In every world and from every state, [cmd_status] returns 0 and
    prints a report with one line for each of installation, loading and
    requirements; the line of a sub-check that failed is its failure
    line.  Run as [mss status], the process exits with 0 whenever [main]
    obtained the context that [cmd_status] is called on. *)
Theorem cmd_status_always_reports :
  forall (h : mss_h) (w : world) (s : state),
    fst (cmd_status w s) = 0 /\
    outputs (snd (cmd_status w s)) = outputs s ++ status_report w s /\
    In (installation_line (is_installed w)) (status_report w s) /\
    In (loading_line (succeeded (hs_result (handshake w)))
                     (hs_version (handshake w))
                     (status_cap_count (hs_capabilities (handshake w))))
       (status_report w s) /\
    In (requirements_line (succeeded (result (check_requirements w))))
       (status_report w s) /\
    (stat_osax w <> 0 ->
     In (mk_output stdout "Installation: ✗ Not installed\n" [])
        (status_report w s)) /\
    (hs_result (handshake w) <> MSS_SUCCESS ->
     In (mk_output stdout "Loading:      ✗ Not loaded\n" [])
        (status_report w s)) /\
    (result (check_requirements w) <> MSS_SUCCESS ->
     In (mk_output stdout "Requirements: ✗ Not met (run 'check' for details)\n" [])
        (status_report w s)) /\
    (forall program_name,
       exit_code w [program_name; "status"] = if create_ok w then 0 else 1).
Proof.
  intros h w s. rewrite cmd_status_run. cbn [fst snd outputs].
  assert (Hi : In (installation_line (is_installed w)) (status_report w s)).
  { unfold status_report. apply in_or_app. left. cbn. tauto. }
  assert (Hl : In (loading_line (succeeded (hs_result (handshake w)))
                     (hs_version (handshake w))
                     (status_cap_count (hs_capabilities (handshake w))))
                  (status_report w s)).
  { unfold status_report. apply in_or_app. right. apply in_or_app. right.
    cbn. tauto. }
  assert (Hr : In (requirements_line (succeeded (result (check_requirements w))))
                  (status_report w s)).
  { unfold status_report. apply in_or_app. right. apply in_or_app. right.
    cbn. tauto. }
  repeat (split; [first [reflexivity | assumption] |]).
  split; [| split; [| split]].
  - intro H. unfold is_installed in Hi.
    apply Z.eqb_neq in H. now rewrite H in Hi.
  - intro H. unfold succeeded in Hl.
    apply Z.eqb_neq in H. now rewrite H in Hl.
  - intro H. unfold succeeded in Hr.
    apply Z.eqb_neq in H. now rewrite H in Hr.
  - intro program_name. unfold exit_code.
    destruct (main_run w [program_name; "status"]) as (k & l & E).
    rewrite E. reflexivity.
Qed.

(** C4, as stated, fails: where nothing is installed, the service does not
    answer and the requirements are unmet, [mss status] reports all three
    failures and the process still exits with code 0. *)
Lemma status_exits_zero_reporting_failures :
  @exit_code header absent_world ["mss"; "status"] = 0 /\
  outputs (snd (@run header absent_world ["mss"; "status"])) =
    [ mk_output stdout "Status Report:\n" [];
      mk_output stdout "\n" [];
      mk_output stdout "Installation: ✗ Not installed\n" [];
      mk_output stdout "Loading:      ✗ Not loaded\n" [];
      mk_output stdout "Requirements: ✗ Not met (run 'check' for details)\n" [];
      mk_output stdout "\n" [] ].
Proof. split; vm_compute; reflexivity. Qed.

End ExitCodes.

(* ================================================================== *)
(** ** Instances *)
(* ================================================================== *)

Section Instances.

Import Util Examples.

(** A missing socket file and a refusing peer give the same result. *)
Lemma socket_connect_failures_collapse_witness :
  connect_fails os_no_such_file 3
    (socket_address_of macos_sun_path_size short_path) /\
  connect_fails os_refused 4
    (socket_address_of macos_sun_path_size long_path) /\
  fst (socket_connect macos_sun_path_size os_no_such_file 3 short_path
         fresh_process) =
  fst (socket_connect macos_sun_path_size os_refused 4 long_path
         fresh_process).
Proof.
  assert (H1 : connect_fails os_no_such_file 3
                 (socket_address_of macos_sun_path_size short_path))
    by reflexivity.
  assert (H2 : connect_fails os_refused 4
                 (socket_address_of macos_sun_path_size long_path))
    by reflexivity.
  split; [exact H1 |]. split; [exact H2 |].
  exact (proj2 (proj2
           (socket_connect_failures_collapse macos_sun_path_size
              os_no_such_file os_refused 3 4 short_path long_path
              fresh_process fresh_process H1 H2))).
Defined.

Lemma long_path_nul_free : nul_free long_path.
Proof.
  unfold nul_free, long_path. intro H. apply repeat_spec in H. discriminate H.
Qed.

(** A path of 200 bytes against the 104 bytes of [sun_path] on macOS. *)
Lemma socket_connect_path_bounded_witness :
  (0 < macos_sun_path_size)%nat /\
  nul_free long_path /\
  (List.length (snprintf_written macos_sun_path_size long_path) <=
   macos_sun_path_size)%nat /\
  c_str (sun_path (socket_address_of macos_sun_path_size long_path)) =
  Some (firstn (macos_sun_path_size - 1) long_path).
Proof.
  assert (Hn : (0 < macos_sun_path_size)%nat) by (unfold macos_sun_path_size; lia).
  split; [exact Hn |]. split; [exact long_path_nul_free |].
  destruct (socket_connect_path_bounded macos_sun_path_size os_refused 4
              long_path fresh_process Hn long_path_nul_free)
    as (Hlen & _ & _ & _ & Hstr & _).
  split; [exact Hlen | exact Hstr].
Defined.

End Instances.

(* ================================================================== *)
(** ** Further properties: common.h and util.h *)
(* ================================================================== *)

Section MoreCommon.

Import Common.

(** X1. The opcodes are numbered without gaps: in the order of their
    declaration their codes are 1, 2, ..., 30, so every number from 0x01
    to 0x1E is the code of an opcode. *)
Theorem opcode_values_contiguous :
  map opcode_value all_opcodes = map Z.of_nat (seq 1 30) /\
  (forall v, 0x01 <= v <= 0x1E -> exists op, opcode_value op = v).
Proof.
  split; [reflexivity |].
  intros v Hv.
  assert (Hin : In v (map opcode_value all_opcodes)).
  { change (map opcode_value all_opcodes) with (map Z.of_nat (seq 1 30)).
    rewrite <- (Z2Nat.id v) by lia. apply in_map, in_seq. lia. }
  apply in_map_iff in Hin. destruct Hin as (op & Hop & _). now exists op.
Qed.

End MoreCommon.

Section MoreUtil.

Import Util.

(** X2. [string_equals] is true exactly when both pointers are non-NULL
    and the strings have the same bytes.  A NULL pointer equals nothing,
    not even NULL; and the order of the arguments does not matter. *)
Theorem string_equals_spec :
  forall a b : option cstring,
    (string_equals a b = true <-> exists s, a = Some s /\ b = Some s) /\
    string_equals a None = false /\
    string_equals None b = false /\
    string_equals a b = string_equals b a.
Proof.
  intros a b.
  assert (Hsym : string_equals a b = string_equals b a).
  { unfold string_equals. destruct a as [a' |], b as [b' |]; try reflexivity.
    destruct (list_eq_dec byte_eq_dec a' b') as [E | Hne];
      destruct (list_eq_dec byte_eq_dec b' a') as [E' | Hne'];
      try reflexivity; exfalso; [apply Hne' | apply Hne]; now symmetry. }
  split; [| split; [| split; [| exact Hsym]]].
  - unfold string_equals. destruct a as [a' |], b as [b' |].
    + destruct (list_eq_dec byte_eq_dec a' b') as [-> | Hne]; split.
      * intros _. now exists b'.
      * reflexivity.
      * discriminate.
      * intros (s & [= ->] & [= ->]). contradiction.
    + split; [discriminate | intros (s & _ & H); discriminate H].
    + split; [discriminate | intros (s & H & _); discriminate H].
    + split; [discriminate | intros (s & H & _); discriminate H].
  - destruct a; reflexivity.
  - reflexivity.
Qed.

Lemma snprintf_written_prefix (n : nat) (p : cstring) :
  snprintf_written n p = snprintf_written n (firstn (n - 1) p).
Proof.
  destruct n as [| m]; [reflexivity |]. cbn [snprintf_written].
  replace (S m - 1)%nat with m by lia. now rewrite firstn_firstn, Nat.min_id.
Qed.

Lemma socket_address_c_str (n : nat) (p : cstring) :
  (0 < n)%nat -> nul_free p ->
  c_str (sun_path (socket_address_of n p)) = Some (firstn (n - 1) p).
Proof.
  intros Hn Hp. rewrite socket_address_path.
  destruct n as [| m]; [lia |]. cbn [snprintf_written].
  replace (S m - 1)%nat with m by lia.
  apply c_str_terminated. intro Hin. apply Hp. eapply In_firstn, Hin.
Qed.

(** X3. Two paths give [socket_connect] the same address exactly when
    they agree on their first [sizeof(sun_path) - 1] bytes: paths that fit
    are never confused, and paths that differ only beyond the field are
    never told apart, so the same connect call is made for both. *)
Theorem socket_address_same_iff_same_prefix
        (n : nat) (p1 p2 : cstring)
        (Hn : (0 < n)%nat) (H1 : nul_free p1) (H2 : nul_free p2) :
  (socket_address_of n p1 = socket_address_of n p2 <->
   firstn (n - 1) p1 = firstn (n - 1) p2) /\
  ((List.length p1 < n)%nat -> (List.length p2 < n)%nat ->
   socket_address_of n p1 = socket_address_of n p2 -> p1 = p2) /\
  (firstn (n - 1) p1 = firstn (n - 1) p2 ->
   forall o sockfd k,
     socket_connect n o sockfd p1 k = socket_connect n o sockfd p2 k).
Proof.
  assert (Hfwd : socket_address_of n p1 = socket_address_of n p2 ->
                 firstn (n - 1) p1 = firstn (n - 1) p2).
  { intro E.
    pose proof (socket_address_c_str n p1 Hn H1) as E1.
    pose proof (socket_address_c_str n p2 Hn H2) as E2.
    rewrite E in E1. rewrite E1 in E2. now injection E2. }
  assert (Hbwd : firstn (n - 1) p1 = firstn (n - 1) p2 ->
                 socket_address_of n p1 = socket_address_of n p2).
  { intro E. unfold socket_address_of. cbn [sun_path sun_family].
    rewrite !snprintf_s_written.
    now rewrite (snprintf_written_prefix n p1), (snprintf_written_prefix n p2), E. }
  split; [split; assumption |]. split.
  - intros L1 L2 E. apply Hfwd in E.
    rewrite !firstn_all2 in E by lia. exact E.
  - intros E o sockfd k. unfold socket_connect. now rewrite (Hbwd E).
Qed.

End MoreUtil.

(* ================================================================== *)
(** ** Further properties: the capability count *)
(* ================================================================== *)

Section MoreCount.

Import Cli Report Examples.

Lemma bump_step (c flag n : Z) : n <= bump c flag n <= n + 1.
Proof. unfold bump. destruct (truthy _); lia. Qed.

(** X4. Whatever the mask, and whatever the seven constants of [mss.h],
    both tallies end between 0 and 7: the report never shows more than
    7 of 7 capabilities. *)
Theorem cap_count_between_0_and_7 :
  forall (h : mss_h) (c : Z),
    0 <= status_cap_count c <= 7 /\
    0 <= test_cap_count c <= 7 /\
    (forall s, 0 <= fst (test_caps c s) <= 7).
Proof.
  intros h c.
  assert (Ht : 0 <= test_cap_count c <= 7).
  { rewrite test_cap_count_tally. unfold test_tally.
    repeat match goal with
           | |- context [bump c ?f ?n] =>
               lazymatch goal with
               | _ : n <= bump c f n <= n + 1 |- _ => fail
               | _ => pose proof (bump_step c f n)
               end
           end.
    lia. }
  split; [| split; [exact Ht | intro s; now rewrite test_caps_value]].
  rewrite status_cap_count_tally.
  repeat match goal with
         | |- context [bump c ?f ?n] =>
             lazymatch goal with
             | _ : n <= bump c f n <= n + 1 |- _ => fail
             | _ => pose proof (bump_step c f n)
             end
         end.
  lia.
Qed.

Lemma status_cap_count_full_low (r : Z) :
  0 <= r < 128 ->
  (status_cap_count r =? 7) = (r =? 0x7F) /\
  (status_cap_count r =? 0) = (r =? 0).
Proof.
  intro Hr.
  pose proof (below_128_cases
                (fun r => Bool.eqb (status_cap_count r =? 7) (r =? 0x7F) &&
                          Bool.eqb (status_cap_count r =? 0) (r =? 0))) as H.
  cbv beta in H. specialize (H ltac:(vm_compute; reflexivity) r Hr).
  apply andb_true_iff in H. destruct H as [H1 H2].
  split; now apply Bool.eqb_prop.
Qed.

(** X5. With the capability constants of [common.h]: the count is 7
    exactly when the mask contains all seven capability bits, whatever
    other bits it has, and 0 exactly when it contains none of them.  So
    [cmd_test] returns 0 exactly when the handshake succeeds and the mask
    contains OSAX_ATTRIB_ALL. *)
Theorem cap_count_full_iff_all_bits
        (h : mss_h) (Hh : caps_of_common h) (w : world) (c : Z) :
  (status_cap_count c = 7 <-> Z.land c Common.OSAX_ATTRIB_ALL = Common.OSAX_ATTRIB_ALL) /\
  (test_cap_count c = 7 <-> Z.land c Common.OSAX_ATTRIB_ALL = Common.OSAX_ATTRIB_ALL) /\
  (test_cap_count c = 0 <-> Z.land c Common.OSAX_ATTRIB_ALL = 0) /\
  (forall s,
     fst (cmd_test w s) = 0 <->
     hs_result (handshake w) = MSS_SUCCESS /\
     Z.land (hs_capabilities (handshake w)) Common.OSAX_ATTRIB_ALL =
       Common.OSAX_ATTRIB_ALL).
Proof.
  assert (Hall : forall c,
             (status_cap_count c = 7 <->
              Z.land c Common.OSAX_ATTRIB_ALL = Common.OSAX_ATTRIB_ALL) /\
             (status_cap_count c = 0 <-> Z.land c Common.OSAX_ATTRIB_ALL = 0)).
  { intro c0. rewrite (status_cap_count_low_bits c0).
    change Common.OSAX_ATTRIB_ALL with 0x7F.
    destruct (status_cap_count_full_low _ (land_0x7F_range c0)) as [H7 H0].
    rewrite <- !Z.eqb_eq, H7, H0. split; reflexivity. }
  assert (Ht : forall c, test_cap_count c = status_cap_count c)
    by (intro c0; now apply test_cap_count_status).
  split; [apply Hall |]. split; [rewrite Ht; apply Hall |].
  split; [rewrite Ht; apply Hall |].
  intro s. rewrite (oo_value _ _ s (oo_cmd_test w)).
  unfold test_code, succeeded. rewrite Ht.
  destruct (Z.eqb_spec (hs_result (handshake w)) MSS_SUCCESS) as [E1 | E1];
    cbn [andb].
  - destruct (Z.eqb_spec (status_cap_count (hs_capabilities (handshake w))) 7)
      as [E2 | E2].
    + apply Hall in E2. tauto.
    + split; [discriminate |]. intros [_ E]. apply Hall in E. contradiction.
  - split; [discriminate | tauto].
Qed.

Lemma status_cap_count_lor_low (f : Z) :
  In f Common.osax_attribs ->
  forall r, 0 <= r < 128 ->
    status_cap_count (Z.lor r f) =
    status_cap_count r + (if truthy (Z.land r f) then 0 else 1).
Proof.
  intros Hf r Hr.
  assert (Hb : (status_cap_count (Z.lor r f) =?
                status_cap_count r + (if truthy (Z.land r f) then 0 else 1))
               = true);
    [| now apply Z.eqb_eq].
  revert r Hr.
  apply (below_128_cases
           (fun r => status_cap_count (Z.lor r f) =?
                     status_cap_count r + (if truthy (Z.land r f) then 0 else 1))).
  cbn in Hf.
  repeat (destruct Hf as [<- | Hf]; [vm_compute; reflexivity |]).
  contradiction.
Qed.

(** X6. Each capability flag counts for exactly one: setting a flag of
    [common.h] in a mask raises the count of [cmd_status] by one if the
    mask did not have it, and leaves it as it was otherwise. *)
Theorem cap_count_flag_adds_one
        (c f : Z) (Hf : In f Common.osax_attribs) :
  status_cap_count (Z.lor c f) =
  status_cap_count c + (if truthy (Z.land c f) then 0 else 1).
Proof.
  assert (Hlow : Z.land f 0x7F = f).
  { cbn in Hf. repeat (destruct Hf as [<- | Hf]; [reflexivity |]).
    contradiction. }
  rewrite (status_cap_count_low_bits (Z.lor c f)), (status_cap_count_low_bits c).
  rewrite Z.land_lor_distr_l, Hlow.
  rewrite (status_cap_count_lor_low f Hf _ (land_0x7F_range c)).
  replace (Z.land (Z.land c 0x7F) f) with (Z.land c f); [reflexivity |].
  rewrite <- Z.land_assoc, (Z.land_comm 0x7F f), Hlow. reflexivity.
Qed.

End MoreCount.

(* ================================================================== *)
(** ** Further properties: the arguments of main *)
(* ================================================================== *)

Section MoreArguments.

Import Cli Report Behaviour.

Context {h : mss_h}.

Ltac oo_step :=
  cbv beta;
  lazymatch goal with
  | |- outputs_only (ret _) _ => apply oo_ret
  | |- outputs_only (printf _ _) _ => apply oo_printf
  | |- outputs_only (print_error _ _) _ => apply oo_print_error
  | |- outputs_only (print_help _) _ => apply oo_print_help
  | |- outputs_only (bind _ _) _ => eapply oo_bind
  end.

Ltac oo := repeat oo_step.

Lemma exit_code_expected (w : world) (argv : list string) :
  exit_code w argv = expected_exit w argv.
Proof.
  unfold exit_code. destruct (main_run w argv) as (k & l & E). now rewrite E.
Qed.

(** The argument loop, one argument at a time. *)
Lemma parsed_cons (argv0 : option string) (a : string) (rest : list string)
      (command : option string) :
  parsed argv0 (a :: rest) command =
  if is_verbose_opt a then parsed argv0 rest command
  else if is_help_opt a then inl 0
  else if starts_with_dash a then inl 1
  else match command with
       | None => parsed argv0 rest (Some a)
       | Some _ => inl 1
       end.
Proof.
  unfold parsed at 1, is_verbose_opt, is_help_opt. cbn [parse_args].
  destruct ((a =? "-v")%string || (a =? "--verbose")%string).
  { unfold bind at 1. cbn [write_g_verbose].
    pose proof (parse_args_parsed argv0 rest command) as Hs.
    match goal with
    | |- fst (parse_args _ _ _ ?s1) = _ =>
        destruct (Hs s1) as (k & l & E); rewrite E
    end.
    reflexivity. }
  destruct ((a =? "-h")%string || (a =? "--help")%string).
  { apply oo_value. oo. }
  destruct (starts_with_dash a).
  { apply oo_value. oo. }
  destruct command as [c |].
  - apply oo_value. oo.
  - reflexivity.
Qed.

Lemma verbose_opt_dash (a : string) :
  is_verbose_opt a = true -> starts_with_dash a = true.
Proof.
  unfold is_verbose_opt. intro H. apply orb_true_iff in H.
  destruct H as [H | H]; apply String.eqb_eq in H; subst a; reflexivity.
Qed.

Lemma help_opt_dash (a : string) :
  is_help_opt a = true -> starts_with_dash a = true.
Proof.
  unfold is_help_opt. intro H. apply orb_true_iff in H.
  destruct H as [H | H]; apply String.eqb_eq in H; subst a; reflexivity.
Qed.

Lemma parsed_without_verbose (argv0 : option string) (rest : list string) :
  forall command,
    parsed argv0 (without_verbose rest) command = parsed argv0 rest command.
Proof.
  induction rest as [| a rest IH]; intro command; [reflexivity |].
  unfold without_verbose in *. cbn [filter].
  rewrite (parsed_cons argv0 a rest).
  destruct (is_verbose_opt a) eqn:Ev; cbn [negb]; [apply IH |].
  rewrite parsed_cons, Ev.
  destruct (is_help_opt a); [reflexivity |].
  destruct (starts_with_dash a); [reflexivity |].
  destruct command; [reflexivity | apply IH].
Qed.

(** X7. Verbose options never change the exit code: a run exits with the
    code of the same run without them. *)
Theorem exit_code_ignores_verbose :
  forall (w : world) (argv0 : string) (rest : list string),
    exit_code w (argv0 :: rest) = exit_code w (argv0 :: without_verbose rest).
Proof.
  intros w argv0 rest. rewrite !exit_code_expected. unfold expected_exit.
  cbn [nth_error tl]. now rewrite parsed_without_verbose.
Qed.

(** When the argument loop hands no command word to [main], the world
    outside is never consulted. *)
Lemma run_without_command (w1 w2 : world) (argv : list string) :
  (forall c, parsed (nth_error argv 0) (tl argv) None <> inr (Some c)) ->
  run w1 argv = run w2 argv /\ log_sink (snd (run w1 argv)) = None.
Proof.
  intro Hno. split.
  - unfold run, main, bind.
    destruct (parse_args_parsed (nth_error argv 0) (tl argv) None initial_state)
      as (k & l & E).
    rewrite E.
    destruct (parsed (nth_error argv 0) (tl argv) None) as [code | [c |]];
      [reflexivity | exfalso; now apply (Hno c) | reflexivity].
  - destruct (main_run w1 argv) as (k & l & E). rewrite E. cbn [snd log_sink].
    destruct (parsed (nth_error argv 0) (tl argv) None) as [code | [c |]];
      [reflexivity | exfalso; now apply (Hno c) | reflexivity].
Qed.

Lemma parsed_all_dashes (argv0 : option string) (rest : list string) :
  Forall (fun a => starts_with_dash a = true) rest ->
  parsed argv0 rest None =
  match without_verbose rest with
  | [] => inr None
  | a :: _ => if is_help_opt a then inl 0 else inl 1
  end.
Proof.
  induction 1 as [| a rest Ha _ IH]; [reflexivity |].
  rewrite parsed_cons. unfold without_verbose in *. cbn [filter].
  destruct (is_verbose_opt a); cbn [negb]; [exact IH |].
  destruct (is_help_opt a); [reflexivity |]. now rewrite Ha.
Qed.

(** X8. When no argument is a command word (each starts with '-'), the
    run does not depend on the world, the log sink is never registered,
    and the exit code is 0 if the first argument that is not a verbose
    option is a help option, and 1 otherwise (also when there is none). *)
Theorem run_without_command_word
        (w1 w2 : world) (argv0 : string) (rest : list string)
        (Hd : Forall (fun a => starts_with_dash a = true) rest) :
  run w1 (argv0 :: rest) = run w2 (argv0 :: rest) /\
  log_sink (snd (run w1 (argv0 :: rest))) = None /\
  exit_code w1 (argv0 :: rest) =
    match without_verbose rest with
    | [] => 1
    | a :: _ => if is_help_opt a then 0 else 1
    end.
Proof.
  pose proof (parsed_all_dashes (Some argv0) rest Hd) as Hp.
  assert (Hno : forall c, parsed (nth_error (argv0 :: rest) 0)
                            (tl (argv0 :: rest)) None <> inr (Some c)).
  { intro c. cbn [nth_error tl]. rewrite Hp.
    destruct (without_verbose rest) as [| a ?]; [discriminate |].
    destruct (is_help_opt a); discriminate. }
  destruct (run_without_command w1 w2 _ Hno) as [Hrun Hsink].
  split; [exact Hrun |]. split; [exact Hsink |].
  rewrite exit_code_expected. unfold expected_exit. cbn [nth_error tl].
  rewrite Hp. destruct (without_verbose rest) as [| a ?]; [reflexivity |].
  destruct (is_help_opt a); reflexivity.
Qed.

Lemma parsed_skip_verbose (argv0 : option string) (pre tail : list string)
      (command : option string) :
  Forall (fun a => is_verbose_opt a = true) pre ->
  parsed argv0 (pre ++ tail) command = parsed argv0 tail command.
Proof.
  induction 1 as [| a pre Ha _ IH]; [reflexivity |].
  cbn [app]. now rewrite parsed_cons, Ha.
Qed.

(** X9. A second command word is a usage error: when the arguments hold
    two words that do not start with '-', with nothing but verbose options
    before the second, the run exits with 1 whatever follows, without
    running any command or consulting the world. *)
Theorem second_command_word_rejected
        (w1 w2 : world) (argv0 c1 c2 : string) (pre mid post : list string)
        (Hpre : Forall (fun a => is_verbose_opt a = true) pre)
        (Hmid : Forall (fun a => is_verbose_opt a = true) mid)
        (H1 : starts_with_dash c1 = false)
        (H2 : starts_with_dash c2 = false) :
  let argv := argv0 :: pre ++ c1 :: mid ++ c2 :: post in
  exit_code w1 argv = 1 /\
  run w1 argv = run w2 argv /\
  log_sink (snd (run w1 argv)) = None.
Proof.
  intro argv. subst argv.
  assert (Hnv : forall c, starts_with_dash c = false -> is_verbose_opt c = false).
  { intros c Hc. destruct (is_verbose_opt c) eqn:E; [| reflexivity].
    apply verbose_opt_dash in E. congruence. }
  assert (Hnh : forall c, starts_with_dash c = false -> is_help_opt c = false).
  { intros c Hc. destruct (is_help_opt c) eqn:E; [| reflexivity].
    apply help_opt_dash in E. congruence. }
  assert (Hp : parsed (Some argv0) (pre ++ c1 :: mid ++ c2 :: post) None = inl 1).
  { rewrite (parsed_skip_verbose _ pre _ _ Hpre).
    rewrite parsed_cons, (Hnv c1 H1), (Hnh c1 H1), H1.
    rewrite (parsed_skip_verbose _ mid _ _ Hmid).
    now rewrite parsed_cons, (Hnv c2 H2), (Hnh c2 H2), H2. }
  split.
  - rewrite exit_code_expected. unfold expected_exit. cbn [nth_error tl].
    now rewrite Hp.
  - apply run_without_command. intro c. cbn [nth_error tl]. rewrite Hp.
    discriminate.
Qed.

Lemma parsed_help_needs_help (argv0 : option string) (rest : list string) :
  forall command,
    parsed argv0 rest command = inl 0 ->
    Exists (fun a => is_help_opt a = true) rest.
Proof.
  induction rest as [| a rest IH]; intro command; [discriminate |].
  rewrite parsed_cons.
  destruct (is_verbose_opt a); [intro H; apply Exists_cons_tl, (IH _ H) |].
  destruct (is_help_opt a) eqn:Eh; [intros _; now apply Exists_cons_hd |].
  destruct (starts_with_dash a); [discriminate |].
  destruct command; [discriminate |].
  intro H. apply Exists_cons_tl, (IH _ H).
Qed.

Lemma parsed_command_from_args (argv0 : option string) (rest : list string) :
  forall command c,
    parsed argv0 rest command = inr (Some c) ->
    command = Some c \/ In c rest.
Proof.
  induction rest as [| a rest IH]; intros command c.
  - intros [= ->]. now left.
  - rewrite parsed_cons.
    destruct (is_verbose_opt a).
    { intro H. destruct (IH _ _ H); [now left | right; now right]. }
    destruct (is_help_opt a); [discriminate |].
    destruct (starts_with_dash a); [discriminate |].
    destruct command; [discriminate |].
    intro H. destruct (IH _ _ H) as [[= ->] | Hin];
      right; [now left | now right].
Qed.

Lemma command_code_zero_known (w : world) (c : string) :
  command_code w c = 0 -> In c known_commands.
Proof.
  unfold command_code, known_commands.
  repeat match goal with
         | |- context [(c =? ?k)%string] =>
             destruct (String.eqb_spec c k) as [-> | _];
             [intros _; cbn; tauto |]
         end.
  discriminate.
Qed.

(** X10. A run can only exit with 0 if one of the arguments is a help
    option, or one of them is one of the six command words and a context
    could be created. *)
Theorem exit_zero_needs_help_or_command :
  forall (w : world) (argv0 : string) (rest : list string),
    exit_code w (argv0 :: rest) = 0 ->
    Exists (fun a => is_help_opt a = true) rest \/
    (create_ok w = true /\ exists c, In c rest /\ In c known_commands).
Proof.
  intros w argv0 rest. rewrite exit_code_expected. unfold expected_exit.
  cbn [nth_error tl].
  destruct (parsed (Some argv0) rest None) as [code | [c |]] eqn:Ep.
  - intros ->. left. eapply parsed_help_needs_help, Ep.
  - destruct (create_ok w); [| discriminate].
    intro Hc. right. split; [reflexivity |]. exists c. split.
    + destruct (parsed_command_from_args _ _ _ _ Ep) as [H | H];
        [discriminate | exact H].
    + eapply command_code_zero_known, Hc.
  - discriminate.
Qed.

End MoreArguments.

(* ================================================================== *)
(** ** Further properties: what goes to which stream *)
(* ================================================================== *)

Section MoreOutput.

Import Cli Report Behaviour.

Lemma stderr_of_app (l1 l2 : list output) :
  stderr_of (l1 ++ l2) = stderr_of l1 ++ stderr_of l2.
Proof. apply filter_app. Qed.

Lemma prints_ret {A} (a : A) (R : A -> list output -> Prop) :
  R a [] -> prints (ret a) R.
Proof. intros H s. exists []. cbn. now rewrite app_nil_r. Qed.

Lemma prints_bind {A B} (m : M A) (f : A -> M B)
      (P : A -> list output -> Prop) (R : B -> list output -> Prop) :
  prints m P ->
  (forall a l1, P a l1 -> prints (f a) (fun b l2 => R b (l1 ++ l2))) ->
  prints (bind m f) R.
Proof.
  intros Hm Hf s. destruct (Hm s) as (l1 & E1 & HP).
  unfold bind. destruct (m s) as [a s1]. cbn [fst snd] in *.
  destruct (Hf a l1 HP s1) as (l2 & E2 & HR).
  exists (l1 ++ l2). split; [now rewrite E2, E1, app_assoc | exact HR].
Qed.

Lemma prints_weaken {A} (m : M A) (P Q : A -> list output -> Prop) :
  prints m P -> (forall a l, P a l -> Q a l) -> prints m Q.
Proof.
  intros Hm HPQ s. destruct (Hm s) as (l & E & HP). exists l. auto.
Qed.

Lemma prints_read {B} (f : bool -> M B) (R : B -> list output -> Prop) :
  (forall v, prints (f v) R) -> prints (bind read_g_verbose f) R.
Proof. intros Hf s. unfold bind, read_g_verbose. apply Hf. Qed.

Lemma prints_fprintf (f : stream) (format : string) (args : list arg) :
  prints (fprintf f format args) (fun _ l => l = [mk_output f format args]).
Proof. intro s. eexists. split; reflexivity. Qed.

Lemma prints_when (c : bool) (m : M unit) (P : unit -> list output -> Prop) :
  prints m P -> prints (when c m) (fun a l => if c then P a l else l = []).
Proof.
  destruct c; [trivial |]. intros _. now apply prints_ret.
Qed.

Lemma prints_write (b : bool) : prints (write_g_verbose b) (fun _ l => l = []).
Proof. intro s. exists []. cbn. now rewrite app_nil_r. Qed.

Lemma stderr_of_log_lines (s : state) (msgs : list string) :
  stderr_of (log_lines s msgs) = [].
Proof.
  unfold log_lines. destruct (log_sink s) as [[] |]; [| reflexivity].
  destruct (g_verbose s); [| reflexivity].
  induction msgs as [| m msgs IH]; [reflexivity | exact IH].
Qed.

Section WithHeader.

Context {h : mss_h}.

Lemma exactly_bind (m : M unit) (k : M unit) (l1 l2 : list output) :
  (forall s, m s = (tt, emit s l1)) ->
  (forall s, k s = (tt, emit s l2)) ->
  forall s, bind m (fun _ => k) s = (tt, emit s (l1 ++ l2)).
Proof.
  intros Hm Hk s. unfold bind. now rewrite Hm, Hk, emit_emit.
Qed.

Lemma print_help_exact (program_name : option string) :
  exists l, forall s, print_help program_name s = (tt, emit s l).
Proof.
  eexists. unfold print_help, printf.
  repeat (eapply exactly_bind; [intro; apply fprintf_run |]).
  intro s. apply fprintf_run.
Qed.

Lemma print_help_run (program_name : option string) (s : state) :
  print_help program_name s = (tt, emit s (help_lines program_name)).
Proof.
  destruct (print_help_exact program_name) as [l H].
  unfold help_lines. now rewrite !H.
Qed.

Lemma stderr_of_help_lines (program_name : option string) :
  stderr_of (help_lines program_name) = [].
Proof. reflexivity. Qed.

Lemma prints_print_help (program_name : option string) :
  prints (print_help program_name) (fun _ l => stderr_of l = []).
Proof.
  intro s. exists (help_lines program_name). rewrite print_help_run.
  split; [reflexivity | apply stderr_of_help_lines].
Qed.

Lemma prints_print_error (format : string) (args : list arg) :
  prints (print_error format args) (fun _ l => l = error_lines format args).
Proof.
  intro s. exists (error_lines format args). split; [| reflexivity].
  unfold print_error, bind, fprintf, error_lines. cbn [fst snd outputs].
  now rewrite <- !app_assoc.
Qed.

Lemma prints_library_logs (msgs : list string) :
  prints (library_logs msgs) (fun _ l => stderr_of l = []).
Proof.
  intro s. exists (log_lines s msgs). rewrite library_logs_run.
  split; [reflexivity | apply stderr_of_log_lines].
Qed.

Lemma prints_lib_call (r : lib_result) :
  prints (lib_call r) (fun a l => a = result r /\ stderr_of l = []).
Proof.
  unfold lib_call. eapply prints_bind; [apply prints_library_logs |].
  intros ? l1 H1. cbv beta in H1. apply prints_ret. now rewrite app_nil_r.
Qed.

Lemma prints_mss_handshake (w : world) :
  prints (mss_handshake w)
    (fun a l => a = (hs_result (handshake w), hs_capabilities (handshake w),
                     hs_version (handshake w)) /\ stderr_of l = []).
Proof.
  unfold mss_handshake. eapply prints_bind; [apply prints_library_logs |].
  intros ? l1 H1. cbv beta in H1. apply prints_ret. now rewrite app_nil_r.
Qed.

Lemma prints_mss_create (w : world) :
  prints (mss_create w) (fun a l => a = create_ok w /\ stderr_of l = []).
Proof.
  unfold mss_create. eapply prints_bind; [apply prints_library_logs |].
  intros ? l1 H1. cbv beta in H1. apply prints_ret. now rewrite app_nil_r.
Qed.

(** One step through straight-line code. *)
Ltac pr_step :=
  cbv beta in *;
  lazymatch goal with
  | |- prints (ret _) _ => apply prints_ret
  | |- prints (bind read_g_verbose _) _ => apply prints_read; intro
  | |- prints (bind (when _ (print_quiet _ _)) _) _ =>
      eapply prints_bind; [apply prints_when, prints_fprintf | intros ? ? ?]
  | |- prints (bind (print_quiet _ _) _) _ =>
      eapply prints_bind; [apply prints_fprintf | intros ? ? ?]
  | |- prints (bind (printf _ _) _) _ =>
      eapply prints_bind; [apply prints_fprintf | intros ? ? ?]
  | |- prints (bind (print_error _ _) _) _ =>
      eapply prints_bind; [apply prints_print_error | intros ? ? ?]
  | |- prints (bind (print_help _) _) _ =>
      eapply prints_bind; [apply prints_print_help | intros ? ? ?]
  | |- prints (bind (lib_call _) _) _ =>
      eapply prints_bind; [apply prints_lib_call | intros ? ? [-> ?]]
  | |- prints (bind (mss_handshake _) _) _ =>
      eapply prints_bind; [apply prints_mss_handshake | intros ? ? [-> ?]]
  | |- prints (bind (mss_create _) _) _ =>
      eapply prints_bind; [apply prints_mss_create | intros ? ? [-> ?]]
  | |- prints (bind (mss_destroy _) _) _ =>
      eapply prints_bind; [apply prints_library_logs | intros ? ? ?]
  | |- prints (bind (write_g_verbose _) _) _ =>
      eapply prints_bind; [apply prints_write | intros ? ? ?]
  | |- prints (if ?c then _ else _) _ => destruct c eqn:?
  end.

Ltac pr := repeat pr_step.

(** Rewrite the stderr part of a concatenation with what is known of its
    pieces. *)
Ltac stderr_known :=
  cbv beta in *;
  repeat match goal with
         | H : (if ?c then _ else _) |- _ => destruct c
         end;
  subst;
  rewrite ?stderr_of_app;
  repeat match goal with
         | H : stderr_of _ = [] |- _ => rewrite H; clear H
         end;
  cbn [stderr_of filter on_stderr out_stream app error_lines].

Lemma wrapper_code_eqb (r : lib_result) :
  (wrapper_code r =? 0) = succeeded (result r).
Proof. unfold wrapper_code. destruct (succeeded _); reflexivity. Qed.

Lemma cmd_check_stderr (w : world) :
  prints (cmd_check w)
    (fun code l =>
       code = wrapper_code (check_requirements w) /\
       stderr_of l = if succeeded (result (check_requirements w)) then []
                     else error_lines "System requirements not met" []).
Proof.
  unfold cmd_check, mss_check_requirements, wrapper_code, succeeded.
  pr; (split; [reflexivity |]); stderr_known; reflexivity.
Qed.

Lemma cmd_install_stderr (w : world) :
  prints (cmd_install w)
    (fun code l =>
       code = wrapper_code (install w) /\
       stderr_of l = if succeeded (result (install w)) then []
                     else error_lines "Installation failed" []).
Proof.
  unfold cmd_install, mss_install, wrapper_code, succeeded.
  pr; (split; [reflexivity |]); stderr_known; reflexivity.
Qed.

Lemma cmd_load_stderr (w : world) :
  prints (cmd_load w)
    (fun code l =>
       code = wrapper_code (load w) /\
       stderr_of l = if succeeded (result (load w)) then []
                     else error_lines "Loading failed" []).
Proof.
  unfold cmd_load, mss_load, wrapper_code, succeeded.
  pr; (split; [reflexivity |]); stderr_known; reflexivity.
Qed.

Lemma cmd_uninstall_stderr (w : world) :
  prints (cmd_uninstall w)
    (fun code l =>
       code = wrapper_code (uninstall w) /\
       stderr_of l = if succeeded (result (uninstall w)) then []
                     else error_lines "Uninstallation failed" []).
Proof.
  unfold cmd_uninstall, mss_uninstall, wrapper_code, succeeded.
  pr; (split; [reflexivity |]); stderr_known; reflexivity.
Qed.

(** X11. Each of check, install, load and uninstall writes to stderr
    exactly when its library call fails, and what it writes there is the
    one error line; everything else it prints, the library's messages
    included, goes to stdout. *)
Theorem wrappers_stderr_iff_failure :
  forall (w : world) (s : state),
    (exists l,
       outputs (snd (cmd_check w s)) = outputs s ++ l /\
       stderr_of l = if succeeded (result (check_requirements w)) then []
                     else error_lines "System requirements not met" []) /\
    (exists l,
       outputs (snd (cmd_install w s)) = outputs s ++ l /\
       stderr_of l = if succeeded (result (install w)) then []
                     else error_lines "Installation failed" []) /\
    (exists l,
       outputs (snd (cmd_load w s)) = outputs s ++ l /\
       stderr_of l = if succeeded (result (load w)) then []
                     else error_lines "Loading failed" []) /\
    (exists l,
       outputs (snd (cmd_uninstall w s)) = outputs s ++ l /\
       stderr_of l = if succeeded (result (uninstall w)) then []
                     else error_lines "Uninstallation failed" []).
Proof.
  intros w s.
  destruct (cmd_check_stderr w s) as (l1 & E1 & _ & H1).
  destruct (cmd_install_stderr w s) as (l2 & E2 & _ & H2).
  destruct (cmd_load_stderr w s) as (l3 & E3 & _ & H3).
  destruct (cmd_uninstall_stderr w s) as (l4 & E4 & _ & H4).
  repeat split; eauto.
Qed.

(** *** The capability lines of cmd_test *)

Lemma prints_test_cap (c flag : Z) (line : string) (n : Z) :
  prints (test_cap c flag line n)
    (fun n' l =>
       n' = bump c flag n /\
       l = if truthy (Z.land c flag) then [mk_output stdout line []] else []).
Proof.
  unfold test_cap, bump. destruct (truthy (Z.land c flag)).
  - eapply prints_bind; [apply prints_fprintf |].
    intros ? l1 ->. now apply prints_ret.
  - now apply prints_ret.
Qed.

Lemma capability_lines_cons (c : Z) (entry : Z * string)
      (table : list (Z * string)) :
  map (fun e => mk_output stdout (snd e) [])
      (filter (fun e => truthy (Z.land c (fst e))) (entry :: table)) =
  (if truthy (Z.land c (fst entry)) then [mk_output stdout (snd entry) []]
   else []) ++
  map (fun e => mk_output stdout (snd e) [])
      (filter (fun e => truthy (Z.land c (fst e))) table).
Proof. cbn [filter]. destruct (truthy _); reflexivity. Qed.

Lemma prints_test_caps (c : Z) :
  prints (test_caps c)
    (fun n l => n = test_cap_count c /\ l = capability_lines c).
Proof.
  unfold test_caps.
  apply (prints_bind _ _ (fun n l => n = 0 /\ l = []));
    [apply prints_ret; split; reflexivity |].
  intros ? ? [-> ->].
  do 7 (eapply prints_bind; [apply prints_test_cap |]; cbv beta;
        intros ? ? [-> ->]).
  apply prints_ret. split.
  - now rewrite test_cap_count_tally.
  - unfold capability_lines, capability_table.
    rewrite !capability_lines_cons. cbn [fst snd map filter app].
    now rewrite !app_nil_r.
Qed.

Lemma bump_add (c flag n : Z) :
  bump c flag n = n + (if truthy (Z.land c flag) then 1 else 0).
Proof. unfold bump. destruct (truthy _); lia. Qed.

Lemma length_optional_line (b : bool) (x : output) :
  Z.of_nat (List.length (if b then [x] else [])) = if b then 1 else 0.
Proof. destruct b; reflexivity. Qed.

Lemma capability_lines_length (c : Z) :
  Z.of_nat (List.length (capability_lines c)) = test_cap_count c.
Proof.
  rewrite test_cap_count_tally.
  unfold capability_lines, capability_table, test_tally.
  rewrite !capability_lines_cons. cbn [fst snd map filter].
  rewrite !length_app, !Nat2Z.inj_add, !length_optional_line, !bump_add.
  cbn [List.length Z.of_nat].
  repeat match goal with
         | |- context [if ?b then 1 else 0] =>
             generalize (if b then 1 else 0); intro
         end.
  lia.
Qed.

Lemma stderr_of_capability_lines (c : Z) : stderr_of (capability_lines c) = [].
Proof.
  unfold capability_lines.
  induction (filter (fun entry => truthy (Z.land c (fst entry))) capability_table)
    as [| e l IH]; [reflexivity | exact IH].
Qed.

Lemma cmd_test_prints (w : world) :
  prints (cmd_test w)
    (fun code l =>
       stderr_of l =
         (if succeeded (hs_result (handshake w)) then []
          else error_lines "Handshake failed - scripting addition not loaded" []) /\
       (succeeded (hs_result (handshake w)) = true ->
        exists logs,
          stderr_of logs = [] /\
          l = mk_output stdout "Testing scripting addition...\n" [] :: logs ++
              [ mk_output stdout "✓ Handshake successful\n" [];
                mk_output stdout "  Version: %s\n" [arg_str (hs_version (handshake w))];
                mk_output stdout "  Capabilities:\n" [] ] ++
              capability_lines (hs_capabilities (handshake w)) ++
              mk_output stdout "\n" [] ::
              (if test_cap_count (hs_capabilities (handshake w)) =? 7 then
                 [ mk_output stdout
                     "✓ Scripting addition is working correctly (%d/%d capabilities)\n"
                     [arg_int (test_cap_count (hs_capabilities (handshake w)));
                      arg_int 7] ]
               else
                 [ mk_output stdout "⚠ Warning: Only %d/%d capabilities available\n"
                     [arg_int (test_cap_count (hs_capabilities (handshake w)));
                      arg_int 7];
                   mk_output stdout
                     "  This may indicate compatibility issues with your macOS version\n"
                     [] ]))).
Proof.
  unfold cmd_test, succeeded.
  eapply prints_bind; [apply prints_fprintf |]. cbv beta. intros ? l0 ->.
  eapply prints_bind; [apply prints_mss_handshake |]. cbv beta.
  intros ? logs [-> Hlogs]. cbv beta iota.
  destruct (hs_result (handshake w) =? MSS_SUCCESS); cbn [negb].
  - do 3 (eapply prints_bind; [apply prints_fprintf |]; cbv beta; intros ? ? ->).
    eapply prints_bind; [apply prints_test_caps |]. cbv beta.
    intros ? caps [-> ->].
    eapply prints_bind; [apply prints_fprintf |]. cbv beta. intros ? ? ->.
    destruct (test_cap_count (hs_capabilities (handshake w)) =? 7).
    + eapply prints_bind; [apply prints_fprintf |]. cbv beta. intros ? ? ->.
      apply prints_ret. split.
      * rewrite !stderr_of_app, Hlogs, stderr_of_capability_lines. reflexivity.
      * intros _. exists logs. split; [exact Hlogs |].
        cbn [app]. rewrite <- ?app_assoc. cbn [app]. rewrite ?app_nil_r.
        reflexivity.
    + do 2 (eapply prints_bind; [apply prints_fprintf |]; cbv beta; intros ? ? ->).
      apply prints_ret. split.
      * rewrite !stderr_of_app, Hlogs, stderr_of_capability_lines. reflexivity.
      * intros _. exists logs. split; [exact Hlogs |].
        cbn [app]. rewrite <- ?app_assoc. cbn [app]. rewrite ?app_nil_r.
        reflexivity.
  - eapply prints_bind; [apply prints_print_error |]. cbv beta. intros ? ? ->.
    eapply prints_bind; [apply prints_fprintf |]. cbv beta. intros ? ? ->.
    apply prints_ret. split; [| discriminate].
    rewrite !stderr_of_app, Hlogs. reflexivity.
Qed.

(** *** A run that exits with 0 wrote nothing to stderr *)

Lemma stderr_of_status_report (w : world) (s : state) :
  stderr_of (status_report w s) = [].
Proof.
  unfold status_report. rewrite !stderr_of_app, stderr_of_log_lines.
  destruct (is_installed w), (succeeded (hs_result (handshake w))),
    (succeeded (result (check_requirements w))); reflexivity.
Qed.

Lemma cmd_status_no_stderr (w : world) :
  prints (cmd_status w) (fun code l => stderr_of l = []).
Proof.
  intro s. exists (status_report w s). rewrite cmd_status_run.
  split; [reflexivity | apply stderr_of_status_report].
Qed.

Lemma wrapper_quiet_success (r : lib_result) (failure : string)
      (code : Z) (l : list output) :
  code = wrapper_code r /\
  stderr_of l = (if succeeded (result r) then [] else error_lines failure []) ->
  quiet_success code l.
Proof.
  intros [-> H] H0. rewrite H. unfold wrapper_code in H0.
  destruct (succeeded (result r)); [reflexivity | discriminate].
Qed.

Lemma dispatch_quiet_success (w : world) (argv0 : option string)
      (command : string) :
  prints (dispatch w argv0 command) quiet_success.
Proof.
  unfold dispatch.
  destruct (command =? "check")%string.
  { eapply prints_weaken; [apply cmd_check_stderr |].
    intros code l. apply wrapper_quiet_success. }
  destruct (command =? "install")%string.
  { eapply prints_weaken; [apply cmd_install_stderr |].
    intros code l. apply wrapper_quiet_success. }
  destruct (command =? "load")%string.
  { eapply prints_weaken; [apply cmd_load_stderr |].
    intros code l. apply wrapper_quiet_success. }
  destruct (command =? "uninstall")%string.
  { eapply prints_weaken; [apply cmd_uninstall_stderr |].
    intros code l. apply wrapper_quiet_success. }
  destruct (command =? "status")%string.
  { eapply prints_weaken; [apply cmd_status_no_stderr |].
    intros code l H _. exact H. }
  destruct (command =? "test")%string.
  { intro s. destruct (cmd_test_prints w s) as (l & E & H1 & _).
    exists l. split; [exact E |]. intro H0. rewrite H1.
    rewrite (oo_value _ _ s (oo_cmd_test w)) in H0. unfold test_code in H0.
    destruct (succeeded (hs_result (handshake w))); [reflexivity |].
    discriminate H0. }
  pr. unfold quiet_success. discriminate.
Qed.

Lemma prints_set_log_callback (cb : callback) :
  prints (mss_set_log_callback cb) (fun _ l => l = []).
Proof. intro s. exists []. cbn. now rewrite app_nil_r. Qed.

Lemma parse_args_quiet_success (argv0 : option string) (rest : list string) :
  forall command,
    prints (parse_args argv0 rest command)
           (fun r l => r <> inl 1 -> stderr_of l = []).
Proof.
  induction rest as [| a rest IH]; intro command; cbn [parse_args].
  - apply prints_ret. reflexivity.
  - destruct ((a =? "-v")%string || (a =? "--verbose")%string).
    { eapply prints_bind; [apply prints_write |]. cbv beta. intros ? ? ->.
      apply IH. }
    destruct ((a =? "-h")%string || (a =? "--help")%string).
    { pr. intros _. stderr_known. reflexivity. }
    destruct (starts_with_dash a).
    { pr. intro Hr. now contradiction Hr. }
    destruct command as [c |].
    + pr. intro Hr. now contradiction Hr.
    + apply IH.
Qed.

Lemma main_quiet_success (w : world) (argv : list string) :
  prints (main w argv) quiet_success.
Proof.
  unfold main.
  eapply prints_bind; [apply parse_args_quiet_success |]. cbv beta.
  intros r l1 H1. destruct r as [code | [command |]].
  - apply prints_ret. intros ->. rewrite app_nil_r. apply H1. discriminate.
  - assert (Hl1 : stderr_of l1 = []) by (apply H1; discriminate).
    eapply prints_bind; [apply prints_set_log_callback |]. cbv beta.
    intros ? ? ->.
    eapply prints_bind; [apply prints_mss_create |]. cbv beta.
    intros ? l3 [-> Hl3].
    destruct (create_ok w); cbn [negb].
    + eapply prints_bind; [apply dispatch_quiet_success |]. cbv beta.
      intros code l4 Hl4.
      eapply prints_bind; [apply prints_library_logs |]. cbv beta.
      intros ? l5 Hl5.
      apply prints_ret. intro H0.
      rewrite !stderr_of_app, Hl1, Hl3, (Hl4 H0), Hl5. reflexivity.
    + pr. unfold quiet_success. discriminate.
  - pr. unfold quiet_success. discriminate.
Qed.

(** X13. A run that exits with code 0 has written nothing to stderr,
    whatever the arguments and the world. *)
Theorem exit_zero_nothing_on_stderr :
  forall (w : world) (argv : list string),
    exit_code w argv = 0 -> stderr_of (outputs (snd (run w argv))) = [].
Proof.
  intros w argv H0.
  destruct (main_quiet_success w argv initial_state) as (l & E & H).
  unfold run. rewrite E. cbn [initial_state outputs app]. apply H, H0.
Qed.

End WithHeader.

End MoreOutput.

(* ================================================================== *)
(** ** Further properties: comparing two runs *)
(* ================================================================== *)

Section MoreRuns.

Import Cli Report Behaviour.

(** *** Rules for any relation kept by printing *)

Section Rules.

Variable R : state -> state -> Prop.
Hypothesis R_emit : forall s s' l, R s s' -> R (emit s l) (emit s' l).

Lemma related_ret {A} (a : A) : related R (ret a) (ret a).
Proof. intros s s' H. split; [reflexivity | exact H]. Qed.

Lemma related_bind {A B} (m m' : M A) (f f' : A -> M B) :
  related R m m' -> (forall a, related R (f a) (f' a)) ->
  related R (bind m f) (bind m' f').
Proof.
  intros Hm Hf s s' H. unfold bind.
  destruct (Hm s s' H) as [Ea Hs].
  destruct (m s) as [a s1], (m' s') as [a' s1']. cbn [fst snd] in *.
  subst a'. apply Hf, Hs.
Qed.

Lemma related_if {A} (c : bool) (m1 m2 m1' m2' : M A) :
  related R m1 m1' -> related R m2 m2' ->
  related R (if c then m1 else m2) (if c then m1' else m2').
Proof. destruct c; trivial. Qed.

Lemma related_fprintf (f : stream) (format : string) (args : list arg) :
  related R (fprintf f format args) (fprintf f format args).
Proof.
  intros s s' H. rewrite !fprintf_run. split; [reflexivity |].
  apply R_emit, H.
Qed.

Lemma related_when (c : bool) (m m' : M unit) :
  related R m m' -> related R (when c m) (when c m').
Proof. destruct c; [trivial | intros _; apply related_ret]. Qed.

Context {h : mss_h}.

Lemma related_print_error (format : string) (args : list arg) :
  related R (print_error format args) (print_error format args).
Proof.
  unfold print_error.
  repeat (apply related_bind; [apply related_fprintf | intro]).
  apply related_fprintf.
Qed.

Lemma related_print_help (program_name : option string) :
  related R (print_help program_name) (print_help program_name).
Proof.
  intros s s' H. rewrite !print_help_run. split; [reflexivity |].
  apply R_emit, H.
Qed.

End Rules.

Context {h : mss_h}.

(** *** Runs that differ in the record of stores only *)

Lemma same_visible_emit (s s' : state) (l : list output) :
  same_visible s s' -> same_visible (emit s l) (emit s' l).
Proof.
  intros (Hv & Hk & Ho). repeat split; cbn; [assumption .. | now rewrite Ho].
Qed.

Lemma sv_read {B} (f f' : bool -> M B) :
  (forall v, related same_visible (f v) (f' v)) ->
  related same_visible (bind read_g_verbose f) (bind read_g_verbose f').
Proof.
  intros Hf s s' H. unfold bind, read_g_verbose.
  destruct H as (Hv & Hk & Ho). rewrite Hv. apply Hf. now repeat split.
Qed.

Lemma sv_write (b : bool) :
  related same_visible (write_g_verbose b) (write_g_verbose b).
Proof.
  intros s s' (Hv & Hk & Ho). split; [reflexivity |]. now repeat split.
Qed.

Lemma sv_set_log_callback (cb : callback) :
  related same_visible (mss_set_log_callback cb) (mss_set_log_callback cb).
Proof.
  intros s s' (Hv & Hk & Ho). split; [reflexivity |]. now repeat split.
Qed.

Lemma sv_library_logs (msgs : list string) :
  related same_visible (library_logs msgs) (library_logs msgs).
Proof.
  intros s s' H. rewrite !library_logs_run. split; [reflexivity |].
  replace (log_lines s' msgs) with (log_lines s msgs).
  - now apply same_visible_emit.
  - unfold log_lines. destruct H as (Hv & Hk & _). now rewrite Hv, Hk.
Qed.

Ltac sv_step :=
  cbv beta;
  lazymatch goal with
  | |- related _ (ret _) _ => apply related_ret
  | |- related _ (fprintf _ _ _) _ => apply (related_fprintf _ same_visible_emit)
  | |- related _ (printf _ _) _ => apply (related_fprintf _ same_visible_emit)
  | |- related _ (print_quiet _ _) _ => apply (related_fprintf _ same_visible_emit)
  | |- related _ (print_error _ _) _ => apply (related_print_error _ same_visible_emit)
  | |- related _ (print_help _) _ => apply (related_print_help _ same_visible_emit)
  | |- related _ (when _ _) _ => apply related_when
  | |- related _ (library_logs _) _ => apply sv_library_logs
  | |- related _ (write_g_verbose _) _ => apply sv_write
  | |- related _ (mss_set_log_callback _) _ => apply sv_set_log_callback
  | |- related _ (bind read_g_verbose _) _ => apply sv_read; intro
  | |- related _ (bind _ _) _ =>
      apply related_bind;
      [| let a := fresh "a" in
         intro a;
         lazymatch type of a with
         | (_ * _ * _)%type => destruct a as [[? ?] ?]
         | _ => idtac
         end ]
  | |- related _ (if _ then _ else _) _ => apply related_if
  end.

Ltac sv := repeat sv_step.

Lemma sv_dispatch (w : world) (argv0 : option string) (command : string) :
  related same_visible (dispatch w argv0 command) (dispatch w argv0 command).
Proof.
  unfold dispatch, cmd_check, cmd_install, cmd_load, cmd_uninstall,
    cmd_status, cmd_test, test_caps, test_cap,
    mss_check_requirements, mss_install, mss_load, mss_uninstall,
    mss_handshake, lib_call.
  sv.
Qed.

(** *** The argument loop, seen from outside *)

Lemma parse_args_value (argv0 : option string) (rest : list string)
      (command : option string) (s : state) :
  fst (parse_args argv0 rest command s) = parsed argv0 rest command.
Proof.
  destruct (parse_args_parsed argv0 rest command s) as (k & l & E).
  now rewrite E.
Qed.

(** When the loop runs to its end it has printed nothing, and the verbose
    flag is set if it was before or some argument is a verbose option. *)
Lemma parse_args_through (argv0 : option string) (rest : list string) :
  forall command r s,
    parsed argv0 rest command = inr r ->
    parse_args argv0 rest command s =
    (inr r,
     mk_state (g_verbose s || existsb is_verbose_opt rest) (log_sink s)
              (outputs s)
              (stores s ++
               repeat (store_g_verbose true)
                      (List.length (filter is_verbose_opt rest)))).
Proof.
  induction rest as [| a rest IH]; intros command r s Hp.
  - injection Hp as <-. destruct s. cbn. now rewrite orb_false_r, app_nil_r.
  - rewrite parsed_cons in Hp. cbn [parse_args existsb filter].
    change ((a =? "-v")%string || (a =? "--verbose")%string)
      with (is_verbose_opt a).
    change ((a =? "-h")%string || (a =? "--help")%string)
      with (is_help_opt a).
    destruct (is_verbose_opt a).
    + unfold bind at 1. cbn [write_g_verbose]. rewrite (IH _ _ _ Hp).
      cbn [g_verbose log_sink outputs stores List.length repeat orb].
      rewrite orb_true_r, <- app_assoc. reflexivity.
    + destruct (is_help_opt a); [discriminate |].
      destruct (starts_with_dash a); [discriminate |].
      destruct command; [discriminate |].
      rewrite (IH _ _ _ Hp). reflexivity.
Qed.

(** What the loop prints depends on the arguments other than verbose
    options only. *)
Lemma parse_args_outputs (argv0 : option string) (rest : list string) :
  forall command s s',
    outputs s = outputs s' ->
    outputs (snd (parse_args argv0 rest command s)) =
    outputs (snd (parse_args argv0 (without_verbose rest) command s')).
Proof.
  induction rest as [| a rest IH]; intros command s s' Ho; [exact Ho |].
  unfold without_verbose in *. cbn [filter parse_args].
  change ((a =? "-v")%string || (a =? "--verbose")%string)
    with (is_verbose_opt a).
  destruct (is_verbose_opt a) eqn:Ev; cbn [negb].
  - unfold bind at 1. cbn [write_g_verbose]. apply IH. exact Ho.
  - cbn [parse_args].
    change ((a =? "-v")%string || (a =? "--verbose")%string)
      with (is_verbose_opt a).
    rewrite Ev.
    destruct ((a =? "-h")%string || (a =? "--help")%string).
    { unfold bind. rewrite !print_help_run. unfold ret, emit.
      cbn [fst snd outputs]. now rewrite Ho. }
    destruct (starts_with_dash a).
    { unfold print_error. unfold bind, fprintf. cbv beta iota.
      rewrite !print_help_run. unfold ret, emit. cbn [fst snd outputs].
      now rewrite Ho. }
    destruct command.
    + unfold print_error. unfold bind, fprintf. cbv beta iota.
      rewrite !print_help_run. unfold ret, emit. cbn [fst snd outputs].
      now rewrite Ho.
    + apply IH. exact Ho.
Qed.

Lemma without_verbose_idem (args : list string) :
  without_verbose (without_verbose args) = without_verbose args.
Proof.
  unfold without_verbose. induction args as [| a args IH]; [reflexivity |].
  cbn [filter]. destruct (is_verbose_opt a) eqn:E; cbn [negb filter];
    [exact IH | now rewrite E, IH].
Qed.

Lemma without_verbose_first (args : list string) :
  without_verbose (verbose_first args) = without_verbose args.
Proof.
  unfold verbose_first.
  destruct (existsb is_verbose_opt args); cbn [app];
    [change (without_verbose ("-v" :: without_verbose args))
       with (without_verbose (without_verbose args)) |];
    apply without_verbose_idem.
Qed.

Lemma existsb_without_verbose (args : list string) :
  existsb is_verbose_opt (without_verbose args) = false.
Proof.
  unfold without_verbose. induction args as [| a args IH]; [reflexivity |].
  cbn [filter]. destruct (is_verbose_opt a) eqn:E; cbn [negb existsb];
    [exact IH | now rewrite E, IH].
Qed.

Lemma existsb_verbose_first (args : list string) :
  existsb is_verbose_opt (verbose_first args) = existsb is_verbose_opt args.
Proof.
  unfold verbose_first. destruct (existsb is_verbose_opt args); cbn [app].
  - reflexivity.
  - apply existsb_without_verbose.
Qed.

Ltac sv_main_step :=
  cbv beta;
  lazymatch goal with
  | |- related _ (dispatch _ _ _) _ => apply sv_dispatch
  | |- related _ (mss_create _) _ => unfold mss_create
  | |- related _ (mss_destroy _) _ => unfold mss_destroy
  | _ => sv_step
  end.

(** X14. Where the verbose options stand among the arguments, and how
    many there are, makes no difference: a run prints what the run with
    one verbose option moved to the front prints (if there was any), and
    exits with the same code. *)
Theorem verbose_options_position_irrelevant :
  forall (w : world) (argv0 : string) (rest : list string),
    exit_code w (argv0 :: rest) = exit_code w (argv0 :: verbose_first rest) /\
    outputs (snd (run w (argv0 :: rest))) =
    outputs (snd (run w (argv0 :: verbose_first rest))).
Proof.
  intros w argv0 rest.
  assert (Hp : parsed (Some argv0) (verbose_first rest) None =
               parsed (Some argv0) rest None).
  { rewrite <- (parsed_without_verbose _ (verbose_first rest)),
      without_verbose_first.
    apply parsed_without_verbose. }
  split.
  { rewrite !exit_code_expected. unfold expected_exit. cbn [nth_error tl].
    now rewrite Hp. }
  unfold run, main. cbn [nth_error tl].
  match goal with
  | |- outputs (snd (bind ?p1 ?K ?s0)) = outputs (snd (bind ?p2 ?K ?s0)) =>
      change (outputs (snd (let (r, s1) := p1 s0 in K r s1)) =
              outputs (snd (let (r, s1) := p2 s0 in K r s1)));
      set (continue := K)
  end.
  destruct (parsed (Some argv0) rest None) as [code | r] eqn:Ep.
  - pose proof (parse_args_value (Some argv0) rest None initial_state) as E1.
    pose proof (parse_args_value (Some argv0) (verbose_first rest) None
                  initial_state) as E2.
    rewrite Ep in E1. rewrite Hp in E2.
    pose proof (parse_args_outputs (Some argv0) rest None
                  initial_state initial_state eq_refl) as O1.
    pose proof (parse_args_outputs (Some argv0) (verbose_first rest) None
                  initial_state initial_state eq_refl) as O2.
    rewrite without_verbose_first in O2.
    destruct (parse_args (Some argv0) rest None initial_state) as [r1 s1].
    destruct (parse_args (Some argv0) (verbose_first rest) None initial_state)
      as [r2 s2].
    cbn [fst snd] in *. subst r1 r2 continue. unfold ret. cbn [snd].
    congruence.
  - rewrite (parse_args_through _ _ _ _ initial_state Ep),
      (parse_args_through _ _ _ _ initial_state Hp).
    rewrite existsb_verbose_first.
    match goal with
    | |- outputs (snd (?P ?s1)) = outputs (snd (?P ?s2)) =>
        assert (Hrel : related same_visible P P);
        [| assert (Hvis : same_visible s1 s2) by (repeat split);
           destruct (Hrel s1 s2 Hvis) as [_ (_ & _ & Ho)]; exact Ho]
    end.
    subst continue. cbv beta iota.
    destruct r as [command |]; repeat sv_main_step.
Qed.

(** *** Runs in which the verbose flag stays clear *)

Lemma same_quiet_emit (s s' : state) (l : list output) :
  same_quiet s s' -> same_quiet (emit s l) (emit s' l).
Proof. intros [<- Hv]. split; [reflexivity | exact Hv]. Qed.

Lemma sq_read {B} (f f' : bool -> M B) :
  related same_quiet (f false) (f' false) ->
  related same_quiet (bind read_g_verbose f) (bind read_g_verbose f').
Proof.
  intros Hf s s' H. unfold bind, read_g_verbose.
  destruct H as [<- Hv]. rewrite Hv. apply Hf. now split.
Qed.

Lemma sq_write_false :
  related same_quiet (write_g_verbose false) (write_g_verbose false).
Proof. intros s s' [<- Hv]. repeat split. Qed.

Lemma sq_set_log_callback (cb : callback) :
  related same_quiet (mss_set_log_callback cb) (mss_set_log_callback cb).
Proof. intros s s' [<- Hv]. repeat split. exact Hv. Qed.

(** While the flag is clear it makes no difference what the library
    logs. *)
Lemma sq_library_logs (msgs msgs' : list string) :
  related same_quiet (library_logs msgs) (library_logs msgs').
Proof.
  intros s s' [<- Hv]. rewrite !library_logs_run.
  assert (Hnone : forall l, log_lines s l = []).
  { intro l. unfold log_lines. rewrite Hv.
    destruct (log_sink s) as [[] |]; reflexivity. }
  rewrite !Hnone, emit_nil. repeat split. exact Hv.
Qed.

Ltac sq_step :=
  cbv beta;
  lazymatch goal with
  | |- related _ (ret _) _ => apply related_ret
  | |- related _ (fprintf _ _ _) _ => apply (related_fprintf _ same_quiet_emit)
  | |- related _ (printf _ _) _ => apply (related_fprintf _ same_quiet_emit)
  | |- related _ (print_quiet _ _) _ => apply (related_fprintf _ same_quiet_emit)
  | |- related _ (print_error _ _) _ => apply (related_print_error _ same_quiet_emit)
  | |- related _ (print_help _) _ => apply (related_print_help _ same_quiet_emit)
  | |- related _ (when _ _) _ => apply related_when
  | |- related _ (library_logs _) _ => apply sq_library_logs
  | |- related _ (write_g_verbose false) _ => apply sq_write_false
  | |- related _ (mss_set_log_callback _) _ => apply sq_set_log_callback
  | |- related _ (bind read_g_verbose _) _ => apply sq_read
  | |- related _ (bind _ _) _ =>
      apply related_bind;
      [| let a := fresh "a" in
         intro a;
         lazymatch type of a with
         | (_ * _ * _)%type => destruct a as [[? ?] ?]
         | _ => idtac
         end ]
  | |- related _ (if _ then _ else _) _ => apply related_if
  end.

Lemma sq_dispatch (w : world) (argv0 : option string) (command : string) :
  related same_quiet (dispatch w argv0 command)
                     (dispatch (silence w) argv0 command).
Proof.
  unfold dispatch, cmd_check, cmd_install, cmd_load, cmd_uninstall,
    cmd_status, cmd_test, test_caps, test_cap, is_installed,
    mss_check_requirements, mss_install, mss_load, mss_uninstall,
    mss_handshake, lib_call.
  cbn [silence mute stat_osax progname create_ok check_requirements install
       load uninstall handshake result messages hs_result hs_capabilities
       hs_version hs_messages].
  repeat sq_step.
Qed.

Lemma sq_parse_args (argv0 : option string) (rest : list string) :
  Forall (fun a => is_verbose_opt a = false) rest ->
  forall command,
    related same_quiet (parse_args argv0 rest command)
                       (parse_args argv0 rest command).
Proof.
  induction 1 as [| a rest Ha _ IH]; intro command; cbn [parse_args].
  - apply related_ret.
  - change ((a =? "-v")%string || (a =? "--verbose")%string)
      with (is_verbose_opt a).
    rewrite Ha.
    destruct ((a =? "-h")%string || (a =? "--help")%string);
      [repeat sq_step |].
    destruct (starts_with_dash a); [repeat sq_step |].
    destruct command; [repeat sq_step | apply IH].
Qed.

(** X15. A run without verbose option prints nothing of what the library
    logs: it is, in result and in everything it prints and stores, the
    run in the world where the library logs nothing. *)
Theorem quiet_run_ignores_library_messages
        (w : world) (argv0 : string) (rest : list string)
        (Hq : Forall (fun a => is_verbose_opt a = false) rest) :
  run w (argv0 :: rest) = run (silence w) (argv0 :: rest).
Proof.
  assert (Hrel : related same_quiet (main w (argv0 :: rest))
                                    (main (silence w) (argv0 :: rest))).
  { unfold main. cbn [nth_error tl].
    apply related_bind; [apply sq_parse_args, Hq |].
    intros [code | [command |]].
    - apply related_ret.
    - unfold mss_create, mss_destroy.
      cbn [silence create_ok create_messages destroy_messages].
      repeat first [apply sq_dispatch | sq_step].
    - repeat sq_step. }
  unfold run.
  destruct (Hrel initial_state initial_state (conj eq_refl eq_refl))
    as [Hv [Hs _]].
  destruct (main w (argv0 :: rest) initial_state),
    (main (silence w) (argv0 :: rest) initial_state).
  cbn [fst snd] in *. now subst.
Qed.

End MoreRuns.

(* ================================================================== *)
(** ** Further properties: help, and a context that cannot be created *)
(* ================================================================== *)

Section MoreErrors.

Import Cli Report Behaviour.

Context {h : mss_h}.

Lemma help_opt_not_verbose (a : string) :
  is_help_opt a = true -> is_verbose_opt a = false.
Proof.
  unfold is_help_opt. intro H. apply orb_true_iff in H.
  destruct H as [H | H]; apply String.eqb_eq in H; subst a; reflexivity.
Qed.

Lemma without_verbose_all (pre : list string) :
  Forall (fun a => is_verbose_opt a = true) pre -> without_verbose pre = [].
Proof.
  unfold without_verbose. induction 1 as [| a pre Ha _ IH]; [reflexivity |].
  cbn [filter]. now rewrite Ha.
Qed.

(** X16. A help option wins over whatever follows it: when nothing but
    verbose options stands before it, the run prints the help text and
    nothing else, exits with 0, and does not depend on the world, whatever
    the remaining arguments are. *)
Theorem help_option_wins
        (w1 w2 : world) (argv0 hlp : string) (pre post : list string)
        (Hpre : Forall (fun a => is_verbose_opt a = true) pre)
        (Hh : is_help_opt hlp = true) :
  let argv := argv0 :: pre ++ hlp :: post in
  exit_code w1 argv = 0 /\
  outputs (snd (run w1 argv)) = help_lines (Some argv0) /\
  run w1 argv = run w2 argv.
Proof.
  intro argv. subst argv.
  pose proof (help_opt_not_verbose hlp Hh) as Hnv.
  assert (Hp : parsed (Some argv0) (pre ++ hlp :: post) None = inl 0).
  { rewrite (parsed_skip_verbose _ pre _ _ Hpre).
    now rewrite parsed_cons, Hnv, Hh. }
  assert (Hrun : run w1 (argv0 :: pre ++ hlp :: post) =
                 run w2 (argv0 :: pre ++ hlp :: post)).
  { apply run_without_command. intro c. cbn [nth_error tl]. rewrite Hp.
    discriminate. }
  split; [| split; [| exact Hrun]].
  - rewrite exit_code_expected. unfold expected_exit. cbn [nth_error tl].
    now rewrite Hp.
  - unfold run, main. cbn [nth_error tl].
    pose proof (parse_args_value (Some argv0) (pre ++ hlp :: post) None
                  initial_state) as Ev.
    rewrite Hp in Ev.
    pose proof (parse_args_outputs (Some argv0) (pre ++ hlp :: post) None
                  initial_state initial_state eq_refl) as Ho.
    unfold bind at 1.
    destruct (parse_args (Some argv0) (pre ++ hlp :: post) None initial_state)
      as [r s1].
    cbn [fst snd] in *. subst r. unfold ret. cbn [snd]. rewrite Ho.
    unfold without_verbose. rewrite filter_app.
    fold (without_verbose pre). rewrite (without_verbose_all pre Hpre).
    cbn [app filter]. rewrite Hnv. cbn [negb parse_args].
    change ((hlp =? "-v")%string || (hlp =? "--verbose")%string)
      with (is_verbose_opt hlp).
    change ((hlp =? "-h")%string || (hlp =? "--help")%string)
      with (is_help_opt hlp).
    rewrite Hnv, Hh. unfold bind. rewrite print_help_run. reflexivity.
Qed.

(** X17. When no context can be created, no command handler runs: the
    run is the same in every world in which creating the context fails
    with the same messages, so nothing else of the world is consulted, and
    it exits with 0 only for help. *)
Theorem no_context_no_command
        (w1 w2 : world) (argv : list string)
        (H1 : create_ok w1 = false) (H2 : create_ok w2 = false)
        (Hm : create_messages w1 = create_messages w2) :
  run w1 argv = run w2 argv /\
  (exit_code w1 argv = 0 ->
   Exists (fun a => is_help_opt a = true) (tl argv)).
Proof.
  split.
  - unfold run, main, mss_create, bind.
    destruct (parse_args (nth_error argv 0) (tl argv) None initial_state)
      as [[code | [command |]] s1]; try reflexivity.
    cbn [mss_set_log_callback]. rewrite !library_logs_run.
    unfold ret. rewrite H1, H2, Hm. reflexivity.
  - rewrite exit_code_expected. unfold expected_exit. rewrite H1.
    destruct (parsed (nth_error argv 0) (tl argv) None) as [code | [c |]] eqn:Ep;
      [| discriminate | discriminate].
    intros ->. eapply parsed_help_needs_help, Ep.
Qed.

End MoreErrors.

(* ================================================================== *)
(** ** Instances of the further properties *)
(* ================================================================== *)

Section MoreInstances.

Import Cli Report Behaviour Examples MoreExamples.

Lemma short_path_nul_free : Util.nul_free short_path.
Proof. unfold Util.nul_free. cbv. intuition discriminate. Qed.

(** The socket path of 15 bytes and the path of 200 bytes, against the
    104 bytes of [sun_path]. *)
Lemma socket_address_same_iff_same_prefix_witness :
  (0 < macos_sun_path_size)%nat /\
  Util.nul_free short_path /\ Util.nul_free long_path /\
  (Util.socket_address_of macos_sun_path_size short_path =
   Util.socket_address_of macos_sun_path_size long_path <->
   firstn (macos_sun_path_size - 1) short_path =
   firstn (macos_sun_path_size - 1) long_path).
Proof.
  assert (Hn : (0 < macos_sun_path_size)%nat) by (unfold macos_sun_path_size; lia).
  split; [exact Hn |]. split; [exact short_path_nul_free |].
  split; [exact long_path_nul_free |].
  exact (proj1 (socket_address_same_iff_same_prefix macos_sun_path_size
                  short_path long_path Hn short_path_nul_free
                  long_path_nul_free)).
Defined.

(** The mask 0xFF, with the header of [common.h]. *)
Lemma cap_count_full_iff_all_bits_witness :
  caps_of_common header /\
  (status_cap_count 0xFF = 7 <->
   Z.land 0xFF Common.OSAX_ATTRIB_ALL = Common.OSAX_ATTRIB_ALL).
Proof.
  assert (Hh : caps_of_common header) by (repeat split).
  split; [exact Hh |].
  exact (proj1 (cap_count_full_iff_all_bits header Hh healthy_world 0xFF)).
Defined.

(** Adding the desktop-picture flag to a mask with two other flags. *)
Lemma cap_count_flag_adds_one_witness :
  In Common.OSAX_ATTRIB_DPPM Common.osax_attribs /\
  status_cap_count (Z.lor 0x05 Common.OSAX_ATTRIB_DPPM) =
  status_cap_count 0x05 +
  (if truthy (Z.land 0x05 Common.OSAX_ATTRIB_DPPM) then 0 else 1).
Proof.
  assert (Hf : In Common.OSAX_ATTRIB_DPPM Common.osax_attribs)
    by (simpl; tauto).
  split; [exact Hf |].
  exact (cap_count_flag_adds_one 0x05 Common.OSAX_ATTRIB_DPPM Hf).
Defined.

(** [mss -v --bogus]. *)
Lemma run_without_command_word_witness :
  Forall (fun a => starts_with_dash a = true) ["-v"; "--bogus"] /\
  @run header healthy_world ["mss"; "-v"; "--bogus"] =
  @run header absent_world ["mss"; "-v"; "--bogus"].
Proof.
  assert (Hd : Forall (fun a => starts_with_dash a = true) ["-v"; "--bogus"])
    by (repeat constructor).
  split; [exact Hd |].
  exact (proj1 (@run_without_command_word header healthy_world absent_world
                  "mss" ["-v"; "--bogus"] Hd)).
Defined.

(** [mss -v check test]. *)
Lemma second_command_word_rejected_witness :
  Forall (fun a => is_verbose_opt a = true) ["-v"] /\
  Forall (fun a => is_verbose_opt a = true) [] /\
  starts_with_dash "check" = false /\
  starts_with_dash "test" = false /\
  @exit_code header healthy_world ["mss"; "-v"; "check"; "test"] = 1.
Proof.
  assert (Hpre : Forall (fun a => is_verbose_opt a = true) ["-v"])
    by (repeat constructor).
  assert (Hmid : Forall (fun a => is_verbose_opt a = true) [])
    by constructor.
  split; [exact Hpre |]. split; [exact Hmid |].
  split; [reflexivity |]. split; [reflexivity |].
  exact (proj1 (@second_command_word_rejected header healthy_world absent_world
                  "mss" "check" "test" ["-v"] [] [] Hpre Hmid eq_refl eq_refl)).
Defined.

(** [mss test] where the service has all seven capabilities. *)
Lemma exit_zero_needs_help_or_command_witness :
  @exit_code header healthy_world ["mss"; "test"] = 0 /\
  (Exists (fun a => is_help_opt a = true) ["test"] \/
   (create_ok healthy_world = true /\
    exists c, In c ["test"] /\ In c known_commands)).
Proof.
  assert (H0 : @exit_code header healthy_world ["mss"; "test"] = 0)
    by (vm_compute; reflexivity).
  split; [exact H0 |].
  exact (@exit_zero_needs_help_or_command header healthy_world "mss" ["test"] H0).
Defined.

Lemma exit_zero_nothing_on_stderr_witness :
  @exit_code header healthy_world ["mss"; "-v"; "status"] = 0 /\
  stderr_of (outputs (snd (@run header healthy_world ["mss"; "-v"; "status"]))) = [].
Proof.
  assert (H0 : @exit_code header healthy_world ["mss"; "-v"; "status"] = 0)
    by (vm_compute; reflexivity).
  split; [exact H0 |].
  exact (@exit_zero_nothing_on_stderr header healthy_world
           ["mss"; "-v"; "status"] H0).
Defined.

(** [mss check], without verbose option. *)
Lemma quiet_run_ignores_library_messages_witness :
  Forall (fun a => is_verbose_opt a = false) ["check"] /\
  @run header absent_world ["mss"; "check"] =
  @run header (silence absent_world) ["mss"; "check"].
Proof.
  assert (Hq : Forall (fun a => is_verbose_opt a = false) ["check"])
    by (repeat constructor).
  split; [exact Hq |].
  exact (@quiet_run_ignores_library_messages header absent_world "mss"
           ["check"] Hq).
Defined.

(** [mss -v --help bogus]. *)
Lemma help_option_wins_witness :
  Forall (fun a => is_verbose_opt a = true) ["-v"] /\
  is_help_opt "--help" = true /\
  @exit_code header absent_world ["mss"; "-v"; "--help"; "bogus"] = 0.
Proof.
  assert (Hpre : Forall (fun a => is_verbose_opt a = true) ["-v"])
    by (repeat constructor).
  split; [exact Hpre |]. split; [reflexivity |].
  exact (proj1 (@help_option_wins header absent_world healthy_world
                  "mss" "--help" ["-v"] ["bogus"] Hpre eq_refl)).
Defined.

(** [mss -v load] in two worlds without context. *)
Lemma no_context_no_command_witness :
  create_ok no_context_world = false /\
  create_ok other_no_context_world = false /\
  create_messages no_context_world = create_messages other_no_context_world /\
  @run header no_context_world ["mss"; "-v"; "load"] =
  @run header other_no_context_world ["mss"; "-v"; "load"].
Proof.
  split; [reflexivity |]. split; [reflexivity |]. split; [reflexivity |].
  exact (proj1 (@no_context_no_command header no_context_world
                  other_no_context_world ["mss"; "-v"; "load"]
                  eq_refl eq_refl eq_refl)).
Defined.

End MoreInstances.

(* ================================================================== *)
(** ** The capability count and the population count *)
(* ================================================================== *)

Section CountAndPopcount.

Import Cli Report Examples.

Lemma popcount_pos_positive (p : positive) : 0 < popcount_pos p.
Proof. induction p; cbn [popcount_pos]; lia. Qed.

Lemma popcount_zero_iff (x : Z) : 0 <= x -> (popcount x = 0 <-> x = 0).
Proof.
  intro Hx. destruct x as [| p | p]; cbn [popcount].
  - tauto.
  - pose proof (popcount_pos_positive p). split; [lia | discriminate].
  - lia.
Qed.

Lemma popcount_twice_plus (x b : Z) :
  0 <= x -> b = 0 \/ b = 1 -> popcount (2 * x + b) = popcount x + b.
Proof.
  intros Hx [-> | ->]; destruct x as [| p | p]; try lia.
  - reflexivity.
  - change (2 * Z.pos p + 0) with (Z.pos p~0). cbn [popcount popcount_pos]. lia.
  - reflexivity.
  - change (2 * Z.pos p + 1) with (Z.pos p~1). cbn [popcount popcount_pos]. lia.
Qed.

(** The bits of a number are the bits above position [k] and the bits
    below it. *)
Lemma popcount_split (k : nat) :
  forall c, 0 <= c ->
    popcount c = popcount (c / 2 ^ Z.of_nat k) + popcount (c mod 2 ^ Z.of_nat k).
Proof.
  induction k as [| k IH]; intros c Hc.
  - change (2 ^ Z.of_nat 0) with 1. rewrite Z.div_1_r, Z.mod_1_r. cbn. lia.
  - rewrite Nat2Z.inj_succ, Z.pow_succ_r by lia.
    assert (Hpow : 0 < 2 ^ Z.of_nat k) by (apply Z.pow_pos_nonneg; lia).
    assert (Hhalf : 0 <= c / 2) by (apply Z.div_pos; lia).
    assert (Hbit : c mod 2 = 0 \/ c mod 2 = 1)
      by (pose proof (Z.mod_pos_bound c 2); lia).
    rewrite <- Z.div_div by lia.
    rewrite Z.rem_mul_r by lia.
    rewrite (Z.add_comm (c mod 2)).
    rewrite popcount_twice_plus;
      [| apply Z.mod_pos_bound; exact Hpow | exact Hbit].
    rewrite (Z.div_mod c 2) at 1 by lia.
    rewrite popcount_twice_plus by assumption.
    rewrite (IH (c / 2) Hhalf). lia.
Qed.

Lemma popcount_above_0x7F (c : Z) :
  0 <= c -> popcount c = popcount (c / 128) + popcount (Z.land c 0x7F).
Proof.
  intro Hc. change 0x7F with (Z.ones 7). rewrite Z.land_ones by lia.
  exact (popcount_split 7 c Hc).
Qed.

Lemma land_0x7F_fixed_iff (c : Z) : 0 <= c -> (Z.land c 0x7F = c <-> c / 128 = 0).
Proof.
  intro Hc. change 0x7F with (Z.ones 7). rewrite Z.land_ones by lia.
  change (2 ^ 7) with 128.
  rewrite Z.div_small_iff by lia. rewrite Z.mod_small_iff by lia. lia.
Qed.

(** C2, amended.  For every mask, the count of the loop in [cmd_status],
    and the count of the seven tests in [cmd_test] when its constants are
    those of [common.h], is the population count of the mask restricted to
    the seven capability bits.  For a mask that a [uint32_t] can hold, it
    is the population count of the mask itself exactly when the mask has
    no bit outside the seven. *)
Theorem cap_count_popcount_of_capability_bits
        (h : mss_h) (Hh : caps_of_common h) (c : Z) :
  status_cap_count c = popcount (Z.land c Common.OSAX_ATTRIB_ALL) /\
  test_cap_count c = popcount (Z.land c Common.OSAX_ATTRIB_ALL) /\
  (forall s, fst (test_caps c s) = popcount (Z.land c Common.OSAX_ATTRIB_ALL)) /\
  (Z.land c Common.OSAX_ATTRIB_ALL = c ->
   status_cap_count c = popcount c /\ test_cap_count c = popcount c) /\
  (uint32 c ->
   (status_cap_count c = popcount c <-> Z.land c Common.OSAX_ATTRIB_ALL = c) /\
   (test_cap_count c = popcount c <-> Z.land c Common.OSAX_ATTRIB_ALL = c) /\
   (forall s, fst (test_caps c s) = popcount c <->
              Z.land c Common.OSAX_ATTRIB_ALL = c)).
Proof.
  assert (Hs : status_cap_count c = popcount (Z.land c Common.OSAX_ATTRIB_ALL))
    by apply status_cap_count_popcount.
  assert (Ht : test_cap_count c = popcount (Z.land c Common.OSAX_ATTRIB_ALL))
    by (rewrite (test_cap_count_status c Hh); exact Hs).
  split; [exact Hs |]. split; [exact Ht |]. split; [| split].
  - intro s. now rewrite test_caps_value.
  - intro Hc. rewrite Hc in Hs, Ht. now split.
  - intros [Hc _].
    assert (Hiff : popcount (Z.land c Common.OSAX_ATTRIB_ALL) = popcount c <->
                   Z.land c Common.OSAX_ATTRIB_ALL = c).
    { change Common.OSAX_ATTRIB_ALL with 0x7F.
      rewrite (popcount_above_0x7F c Hc).
      rewrite (land_0x7F_fixed_iff c Hc).
      rewrite <- (popcount_zero_iff (c / 128)) by (apply Z.div_pos; lia).
      lia. }
    split; [now rewrite Hs |]. split; [now rewrite Ht |].
    intro s. now rewrite test_caps_value, Ht.
Qed.

(** The mask 0xFF, which has a bit outside the seven, with the header of
    [common.h]. *)
Lemma cap_count_popcount_of_capability_bits_witness :
  caps_of_common header /\
  status_cap_count 0xFF = popcount (Z.land 0xFF Common.OSAX_ATTRIB_ALL) /\
  @test_cap_count header 0xFF = popcount (Z.land 0xFF Common.OSAX_ATTRIB_ALL) /\
  uint32 0xFF /\
  (status_cap_count 0xFF = popcount 0xFF <->
   Z.land 0xFF Common.OSAX_ATTRIB_ALL = 0xFF).
Proof.
  assert (Hh : caps_of_common header) by (repeat split).
  assert (Hu : uint32 0xFF) by (unfold uint32; lia).
  split; [exact Hh |].
  destruct (cap_count_popcount_of_capability_bits header Hh 0xFF)
    as (Hs & Ht & _ & _ & Hiff).
  split; [exact Hs |]. split; [exact Ht |]. split; [exact Hu |].
  exact (proj1 (Hiff Hu)).
Defined.

End CountAndPopcount.

(* ================================================================== *)
(** ** The arguments decide the run *)
(* ================================================================== *)

Section ArgumentsDecide.

Import Cli Report Behaviour.

Context {h : mss_h}.

Ltac oo_step :=
  cbv beta;
  lazymatch goal with
  | |- outputs_only (ret _) _ => apply oo_ret
  | |- outputs_only (printf _ _) _ => apply oo_printf
  | |- outputs_only (print_error _ _) _ => apply oo_print_error
  | |- outputs_only (print_help _) _ => apply oo_print_help
  | |- outputs_only (bind _ _) _ => eapply oo_bind
  end.

Ltac oo := repeat oo_step.

Lemma without_verbose_none (args : list string) :
  Forall (fun a => is_verbose_opt a = false) (without_verbose args).
Proof.
  apply Forall_forall. intros a Ha. unfold without_verbose in Ha.
  apply filter_In in Ha. destruct Ha as [_ Ha].
  now apply negb_true_iff in Ha.
Qed.

(** What the argument loop hands back, read off the arguments other than
    verbose options: only the first two of them matter. *)
Lemma parsed_by_arguments (argv0 : option string) (rest : list string) :
  parsed argv0 rest None =
  match without_verbose rest with
  | [] => inr None
  | a :: more =>
      if is_help_opt a then inl 0
      else if starts_with_dash a then inl 1
      else match more with
           | [] => inr (Some a)
           | b :: _ => if is_help_opt b then inl 0 else inl 1
           end
  end.
Proof.
  rewrite <- parsed_without_verbose.
  pose proof (without_verbose_none rest) as Hnv.
  destruct (without_verbose rest) as [| a more]; [reflexivity |].
  inversion Hnv as [| ? ? Ha Hmore]; subst.
  rewrite parsed_cons, Ha.
  destruct (is_help_opt a); [reflexivity |].
  destruct (starts_with_dash a); [reflexivity |].
  destruct more as [| b more]; [reflexivity |].
  inversion Hmore as [| ? ? Hb _]; subst.
  rewrite parsed_cons, Hb.
  destruct (is_help_opt b); [reflexivity |].
  destruct (starts_with_dash b); reflexivity.
Qed.

Lemma parsed_command_of (argv0 : option string) (rest : list string) :
  match parsed argv0 rest None with
  | inr (Some c) => command_of rest = Some c
  | _ => command_of rest = None
  end.
Proof.
  rewrite parsed_by_arguments. unfold command_of.
  destruct (without_verbose rest) as [| a [| b more]]; try reflexivity.
  - destruct (is_help_opt a) eqn:Eh.
    + now rewrite (help_opt_dash a Eh).
    + destruct (starts_with_dash a); reflexivity.
  - destruct (is_help_opt a); [reflexivity |].
    destruct (starts_with_dash a); [reflexivity |].
    destruct (is_help_opt b); reflexivity.
Qed.

Lemma later_stores_by_arguments (w : world) (argv0 : string)
      (rest : list string) (v : bool) :
  later_stores w (argv0 :: rest) v = stores_after_startup w rest v.
Proof.
  unfold later_stores, stores_after_startup. cbn [nth_error tl].
  pose proof (parsed_command_of (Some argv0) rest) as H.
  destruct (parsed (Some argv0) rest None) as [code | [c |]];
    now rewrite H.
Qed.

(** The stores of the argument loop: one for each verbose option it
    comes to. *)
Lemma parse_args_stores (argv0 : option string) (rest : list string) :
  forall command s,
    stores (snd (parse_args argv0 rest command s)) =
    stores s ++
    repeat (store_g_verbose true)
           (verbose_reached rest
              (match command with Some _ => true | None => false end)).
Proof.
  induction rest as [| a rest IH]; intros command s;
    cbn [parse_args verbose_reached].
  - cbn. now rewrite app_nil_r.
  - change ((a =? "-v")%string || (a =? "--verbose")%string)
      with (is_verbose_opt a).
    change ((a =? "-h")%string || (a =? "--help")%string)
      with (is_help_opt a).
    destruct (is_verbose_opt a).
    { unfold bind at 1. cbn [write_g_verbose]. rewrite IH.
      cbn [stores repeat]. now rewrite <- app_assoc. }
    destruct (is_help_opt a) eqn:Eh.
    { rewrite (help_opt_dash a Eh). cbn [repeat]. rewrite app_nil_r.
      apply oo_globals with (a := inl 0). oo. }
    destruct (starts_with_dash a).
    { cbn [repeat]. rewrite app_nil_r.
      apply oo_globals with (a := inl 1). oo. }
    destruct command as [c |].
    + cbn [repeat]. rewrite app_nil_r.
      apply oo_globals with (a := inl 1). oo.
    + apply IH.
Qed.

Lemma repeat_injective {A} (x : A) (m n : nat) :
  repeat x m = repeat x n -> m = n.
Proof.
  intro H. apply (f_equal (@List.length A)) in H.
  now rewrite !repeat_length in H.
Qed.

Lemma parse_args_exact (argv0 : option string) (rest : list string)
      (command : option string) (s : state) :
  exists l,
    parse_args argv0 rest command s =
    (parsed argv0 rest command,
     mk_state
       (verbose_after
          (verbose_reached rest
             (match command with Some _ => true | None => false end))
          (g_verbose s))
       (log_sink s) (outputs s ++ l)
       (stores s ++
        repeat (store_g_verbose true)
          (verbose_reached rest
             (match command with Some _ => true | None => false end)))).
Proof.
  destruct (parse_args_parsed argv0 rest command s) as (k & l & E).
  pose proof (parse_args_stores argv0 rest command s) as Hst.
  rewrite E in Hst. cbn [snd stores] in Hst.
  apply app_inv_head, repeat_injective in Hst. subst k.
  exists l. exact E.
Qed.

(** The whole effect of [main] on the globals, with the number of
    stores of the argument loop. *)
Lemma main_run_exact (w : world) (argv0 : string) (rest : list string) :
  exists l,
    run w (argv0 :: rest) =
    (expected_exit w (argv0 :: rest),
     mk_state (verbose_after (verbose_reached rest false) false)
              (match command_of rest with
               | Some _ => Some log_callback_fn
               | None => None
               end)
              l
              (repeat (store_g_verbose true) (verbose_reached rest false) ++
               stores_after_startup w rest
                 (verbose_after (verbose_reached rest false) false))).
Proof.
  rewrite <- later_stores_by_arguments with (argv0 := argv0).
  pose proof (parsed_command_of (Some argv0) rest) as Hcmd.
  unfold run, main, expected_exit, later_stores. cbn [nth_error tl].
  unfold bind at 1.
  destruct (parse_args_exact (Some argv0) rest None initial_state) as (l & E).
  rewrite E. cbn [initial_state g_verbose log_sink outputs stores app].
  set (k := verbose_reached rest false).
  destruct (parsed (Some argv0) rest None) as [code | [command |]];
    rewrite Hcmd; cbv beta iota.
  - exists l. unfold ret. now rewrite app_nil_r.
  - unfold bind at 1.
    cbn [mss_set_log_callback g_verbose log_sink outputs stores].
    unfold bind at 1.
    match goal with
    | |- context [mss_create w ?s2] =>
        destruct (oo_mss_create w s2) as [l3 E3]; rewrite E3
    end.
    unfold emit. cbn [g_verbose log_sink outputs stores].
    destruct (create_ok w); cbn [negb andb].
    + destruct (command =? "status")%string eqn:Hst.
      * destruct (dispatch_status w (Some argv0) command Hst) as [Hd Hc].
        rewrite Hd, Hc. unfold bind at 1. rewrite cmd_status_run.
        cbn [g_verbose log_sink outputs stores].
        unfold bind at 1.
        match goal with
        | |- context [mss_destroy w ?s4] =>
            destruct (oo_mss_destroy w s4) as [l5 E5]; rewrite E5
        end.
        unfold ret, emit. cbn [g_verbose log_sink outputs stores].
        eexists. f_equal. f_equal. now rewrite <- app_assoc.
      * unfold bind at 1.
        match goal with
        | |- context [dispatch w (Some argv0) command ?s3] =>
            destruct (oo_dispatch w (Some argv0) command Hst s3) as [l4 E4];
            rewrite E4
        end.
        unfold bind at 1.
        match goal with
        | |- context [mss_destroy w ?s4] =>
            destruct (oo_mss_destroy w s4) as [l5 E5]; rewrite E5
        end.
        unfold ret, emit. cbn [g_verbose log_sink outputs stores].
        eexists. reflexivity.
    + assert (Hoo : outputs_only
                      (print_error "Failed to create context" [] ;;; ret 1)%c 1)
        by oo.
      match goal with
      | |- exists _, _ ?s3 = _ => destruct (Hoo s3) as [l4 E4]; rewrite E4
      end.
      eexists. reflexivity.
  - assert (Hoo : outputs_only
                    (print_error "No command specified" [] ;;;
                     printf "\n" [] ;;; print_help (Some argv0) ;;; ret 1)%c 1)
      by oo.
    match goal with
    | |- exists _, _ ?s1 = _ => destruct (Hoo s1) as [l2 E2]; rewrite E2
    end.
    eexists. unfold emit. cbn [g_verbose log_sink outputs stores].
    now rewrite app_nil_r.
Qed.

Lemma verbose_after_filter (args : list string) :
  verbose_after (List.length (filter is_verbose_opt args)) false =
  existsb is_verbose_opt args.
Proof.
  induction args as [| a args IH]; [reflexivity |].
  cbn [filter existsb]. destruct (is_verbose_opt a); [reflexivity | exact IH].
Qed.

(** A run that comes to a command has passed every verbose option. *)
Lemma verbose_reached_all (rest : list string) (c : string) :
  command_of rest = Some c ->
  verbose_reached rest false = List.length (filter is_verbose_opt rest).
Proof.
  intro Hc. pose proof (parsed_command_of (Some "") rest) as Hp.
  destruct (parsed (Some "") rest None) as [code | [c' |]] eqn:Ep;
    try congruence.
  pose proof (parse_args_through _ _ _ _ initial_state Ep) as E1.
  pose proof (parse_args_stores (Some "") rest None initial_state) as E2.
  rewrite E1 in E2. cbn [snd stores] in E2.
  apply app_inv_head, repeat_injective in E2. now symmetry.
Qed.

End ArgumentsDecide.

(* ================================================================== *)
(** ** The verbose flag and the log sink over a whole run *)
(* ================================================================== *)

Section GlobalsOverARun.

Import Cli Report Behaviour.

(** With the verbose flag clear, a library call leaves the process as it
    is, whatever it logs. *)
Lemma lib_call_flag_clear {h : mss_h} (r : lib_result) (s : state) :
  g_verbose s = false -> lib_call r s = (result r, s).
Proof.
  intro Hv. unfold lib_call, bind. rewrite library_logs_run.
  unfold log_lines. rewrite Hv.
  destruct (log_sink s) as [[] |]; now rewrite emit_nil.
Qed.

(** C1, amended.  [cmd_status] clears the verbose flag, runs the
    requirements check with the flag clear, and then stores back the value
    the flag had; these are its only stores, and it returns with the flag
    and the sink as it found them.  What the check logs is never printed
    by [cmd_status], also in a verbose run: it has no effect at all.  No
    other command handler stores into the flag or the sink.  Over a whole
    run of [main], the stores are: [true] into the flag, once for each
    verbose option the argument loop comes to before it returns; then, if
    the arguments name a command, the one registration of the sink; then,
    for [status] with a context, the two stores above. *)
Theorem verbose_flag_saved_and_restored :
  forall (h : mss_h) (w : world),
    (forall s,
       g_verbose (snd (cmd_status w s)) = g_verbose s /\
       log_sink (snd (cmd_status w s)) = log_sink s /\
       stores (snd (cmd_status w s)) =
         stores s ++ [store_g_verbose false; store_g_verbose (g_verbose s)]) /\
    (forall s,
       globals_untouched s (snd (cmd_check w s)) /\
       globals_untouched s (snd (cmd_install w s)) /\
       globals_untouched s (snd (cmd_load w s)) /\
       globals_untouched s (snd (cmd_uninstall w s)) /\
       globals_untouched s (snd (cmd_test w s))) /\
    (forall argv, exists k,
       g_verbose (snd (run w argv)) = verbose_after k false /\
       stores (snd (run w argv)) =
         repeat (store_g_verbose true) k ++
         later_stores w argv (verbose_after k false)) /\
    (forall s,
       let s1 := emit s (status_before_check w s) in
       let s2 := snd (write_g_verbose false s1) in
       let s3 := snd (mss_check_requirements w s2) in
       let s4 := snd (write_g_verbose (g_verbose s) s3) in
       g_verbose s2 = false /\
       s3 = s2 /\
       cmd_status w s =
         (0, emit s4
               [ requirements_line
                   (succeeded (fst (mss_check_requirements w s2)));
                 mk_output stdout "\n" [] ])) /\
    (forall msgs s,
       cmd_status (with_check_messages w msgs) s = cmd_status w s) /\
    (forall s, outputs (snd (cmd_status w s)) = outputs s ++ status_report w s) /\
    (forall argv0 rest,
       g_verbose (snd (run w (argv0 :: rest))) =
         verbose_after (verbose_reached rest false) false /\
       log_sink (snd (run w (argv0 :: rest))) =
         match command_of rest with
         | Some _ => Some log_callback_fn
         | None => None
         end /\
       stores (snd (run w (argv0 :: rest))) =
         repeat (store_g_verbose true) (verbose_reached rest false) ++
         stores_after_startup w rest
           (verbose_after (verbose_reached rest false) false) /\
       (forall c,
          command_of rest = Some c ->
          verbose_reached rest false =
            List.length (filter is_verbose_opt rest) /\
          verbose_after (verbose_reached rest false) false =
            existsb is_verbose_opt rest)) /\
    stores (snd (run w [])) = [] /\
    log_sink (snd (run w [])) = None.
Proof.
  intros h w.
  split; [| split; [| split; [| split; [| split; [| split; [| split]]]]]].
  - intro s. rewrite cmd_status_run. repeat split.
  - intro s.
    repeat split;
      first [ apply (oo_globals _ _ s (oo_cmd_check w))
            | apply (oo_globals _ _ s (oo_cmd_install w))
            | apply (oo_globals _ _ s (oo_cmd_load w))
            | apply (oo_globals _ _ s (oo_cmd_uninstall w))
            | apply (oo_globals _ _ s (oo_cmd_test w)) ].
  - intro argv. destruct (main_run w argv) as (k & l & E).
    exists k. rewrite E. split; reflexivity.
  - intro s. cbv zeta.
    set (s2 := snd (write_g_verbose false (emit s (status_before_check w s)))).
    assert (Hv : g_verbose s2 = false) by reflexivity.
    assert (Hc : mss_check_requirements w s2 =
                 (result (check_requirements w), s2))
      by (apply lib_call_flag_clear, Hv).
    rewrite Hc. cbn [fst snd].
    split; [exact Hv |]. split; [reflexivity |].
    rewrite cmd_status_run. subst s2.
    unfold emit, write_g_verbose, status_report, status_before_check.
    cbn [fst snd g_verbose log_sink outputs stores].
    f_equal. f_equal.
    + now rewrite <- !app_assoc.
    + now rewrite <- app_assoc.
  - intros msgs s. rewrite !cmd_status_run. reflexivity.
  - intro s. now rewrite cmd_status_run.
  - intros argv0 rest.
    destruct (main_run_exact w argv0 rest) as (l & E). rewrite E.
    cbn [snd g_verbose log_sink stores].
    split; [reflexivity |]. split; [reflexivity |]. split; [reflexivity |].
    intros c Hc. rewrite (verbose_reached_all rest c Hc).
    split; [reflexivity | apply verbose_after_filter].
  - split; reflexivity.
Qed.

End GlobalsOverARun.

(* ================================================================== *)
(** ** The exit code of every run *)
(* ================================================================== *)

Section ExitCodeOfEveryRun.

Import Cli Report Behaviour.

(** C4, amended.  The exit code of every run is 0 or 1, and the arguments
    other than verbose options decide it.  With none of them the code is 1
    (no command).  If the first is a help option the code is 0; if it is
    another option, 1.  Otherwise it is a command word: followed by a help
    option the code is 0, followed by anything else 1; standing alone, the
    code is 1 when no context can be created, and otherwise the code of
    the command: for check, install, load and uninstall 0 when the library
    call succeeds and 1 when it does not; for test 0 when the handshake
    succeeds and the capability count is 7, and 1 otherwise; for status 0
    whatever is reported; 1 for an unknown command word. *)
Theorem exit_code_of_every_run :
  forall (h : mss_h) (w : world),
    (forall argv,
       exit_code w argv = expected_exit w argv /\
       (exit_code w argv = 0 \/ exit_code w argv = 1)) /\
    (forall s,
       fst (cmd_check w s) = wrapper_code (check_requirements w) /\
       fst (cmd_install w s) = wrapper_code (install w) /\
       fst (cmd_load w s) = wrapper_code (load w) /\
       fst (cmd_uninstall w s) = wrapper_code (uninstall w) /\
       fst (cmd_status w s) = 0 /\
       fst (cmd_test w s) = test_code w) /\
    (forall r, wrapper_code r = 0 <-> result r = MSS_SUCCESS) /\
    (test_code w = 0 <->
     hs_result (handshake w) = MSS_SUCCESS /\
     test_cap_count (hs_capabilities (handshake w)) = 7) /\
    (hs_result (handshake w) = MSS_SUCCESS ->
     test_cap_count (hs_capabilities (handshake w)) < 7 ->
     forall s, fst (cmd_test w s) = 1) /\
    exit_code w [] = 1 /\
    (forall argv0 rest,
       exit_code w (argv0 :: rest) =
       match without_verbose rest with
       | [] => 1
       | a :: more =>
           if is_help_opt a then 0
           else if starts_with_dash a then 1
           else match more with
                | [] => if create_ok w then command_code w a else 1
                | b :: _ => if is_help_opt b then 0 else 1
                end
       end) /\
    (command_code w "check" = wrapper_code (check_requirements w) /\
     command_code w "install" = wrapper_code (install w) /\
     command_code w "load" = wrapper_code (load w) /\
     command_code w "uninstall" = wrapper_code (uninstall w) /\
     command_code w "status" = 0 /\
     command_code w "test" = test_code w /\
     (forall c, ~ In c known_commands -> command_code w c = 1)).
Proof.
  intros h w.
  assert (Hw : forall r, wrapper_code r = 0 <-> result r = MSS_SUCCESS).
  { intro r. unfold wrapper_code, succeeded.
    destruct (result r =? MSS_SUCCESS) eqn:E.
    - apply Z.eqb_eq in E. tauto.
    - apply Z.eqb_neq in E. split; [discriminate | contradiction]. }
  assert (Ht : test_code w = 0 <->
               hs_result (handshake w) = MSS_SUCCESS /\
               test_cap_count (hs_capabilities (handshake w)) = 7).
  { unfold test_code, succeeded.
    destruct (Z.eqb_spec (hs_result (handshake w)) MSS_SUCCESS) as [E1 | E1];
      destruct (Z.eqb_spec (test_cap_count (hs_capabilities (handshake w))) 7)
        as [E2 | E2];
      cbn [andb];
      (split; [first [tauto | discriminate] | first [tauto | reflexivity]]). }
  split; [| split; [| split; [exact Hw | split; [exact Ht |]]]].
  - intro argv. unfold exit_code.
    destruct (main_run w argv) as (k & l & E). rewrite E. cbn [fst].
    split; [reflexivity |].
    unfold expected_exit.
    destruct (parsed (nth_error argv 0) (tl argv) None)
      as [code | [command |]] eqn:Ep.
    + eapply parsed_code, Ep.
    + destruct (create_ok w); [apply command_code_range | now right].
    + now right.
  - intro s.
    rewrite (oo_value _ _ s (oo_cmd_check w)),
            (oo_value _ _ s (oo_cmd_install w)),
            (oo_value _ _ s (oo_cmd_load w)),
            (oo_value _ _ s (oo_cmd_uninstall w)),
            (oo_value _ _ s (oo_cmd_test w)),
            cmd_status_run.
    repeat split.
  - split; [| split; [reflexivity | split]].
    + intros Hok Hlt s. rewrite (oo_value _ _ s (oo_cmd_test w)).
      unfold test_code, succeeded.
      apply Z.eqb_eq in Hok. rewrite Hok. cbn [andb].
      destruct (test_cap_count (hs_capabilities (handshake w)) =? 7) eqn:E;
        [apply Z.eqb_eq in E; lia | reflexivity].
    + intros argv0 rest. rewrite exit_code_expected. unfold expected_exit.
      cbn [nth_error tl]. rewrite parsed_by_arguments.
      destruct (without_verbose rest) as [| a more]; [reflexivity |].
      destruct (is_help_opt a); [reflexivity |].
      destruct (starts_with_dash a); [reflexivity |].
      destruct more as [| b more]; [reflexivity |].
      destruct (is_help_opt b); reflexivity.
    + repeat (split; [reflexivity |]).
      intros c Hc. unfold command_code.
      repeat match goal with
             | |- context [(c =? ?k)%string] =>
                 destruct (String.eqb_spec c k) as [-> | _];
                 [exfalso; apply Hc; cbn; tauto |]
             end.
      reflexivity.
Qed.

End ExitCodeOfEveryRun.

(* ================================================================== *)
(** ** What cmd_test prints *)
(* ================================================================== *)

Section TestOutput.

Import Cli Report Behaviour.

Context {h : mss_h}.

Lemma test_caps_run (c : Z) (s : state) :
  test_caps c s = (test_cap_count c, emit s (capability_lines c)).
Proof.
  destruct (oo_test_caps c s) as [l E].
  destruct (prints_test_caps c s) as (l' & Eo & Hn & ->).
  rewrite E in Eo, Hn. cbn [fst snd emit outputs] in Eo, Hn.
  apply app_inv_head in Eo. subst l. now rewrite E, Hn.
Qed.

Lemma print_error_run (format : string) (args : list arg) (s : state) :
  print_error format args s = (tt, emit s (error_lines format args)).
Proof.
  revert s. unfold print_error, error_lines.
  change [mk_output stderr "Error: " []; mk_output stderr format args;
          mk_output stderr "\n" []]
    with ([mk_output stderr "Error: " []] ++
          [mk_output stderr format args] ++ [mk_output stderr "\n" []]).
  repeat (apply exactly_bind; [intro; apply fprintf_run |]).
  intro s. apply fprintf_run.
Qed.

Lemma stderr_of_cons_stdout (x : output) (l : list output) :
  on_stderr x = false -> stderr_of (x :: l) = stderr_of l.
Proof. intro H. unfold stderr_of. cbn [filter]. now rewrite H. Qed.

Lemma log_lines_emit (s : state) (l : list output) (msgs : list string) :
  log_lines (emit s l) msgs = log_lines s msgs.
Proof. reflexivity. Qed.

(** X12. [cmd_test] prints its heading and then, only in a verbose run
    with the sink registered, the lines of what the handshake logs.  When
    the handshake succeeds it goes on with its three header lines, the
    line of each capability whose flag is set in the mask, in the order of
    the tests and nothing else, then a blank line and the verdict; the
    number of capability lines is the count the verdict shows.  When the
    handshake fails it goes on with the error line and the advice, and
    only then does it write to stderr. *)
Theorem cmd_test_lists_capabilities :
  forall (w : world) (s : state),
    cmd_test w s = (test_code w, emit s (test_report w s)) /\
    outputs (snd (cmd_test w s)) = outputs s ++ test_report w s /\
    Z.of_nat (List.length (capability_lines (hs_capabilities (handshake w)))) =
      test_cap_count (hs_capabilities (handshake w)) /\
    stderr_of (test_report w s) =
      (if succeeded (hs_result (handshake w)) then []
       else error_lines "Handshake failed - scripting addition not loaded" []).
Proof.
  intros w s.
  assert (Hrun : cmd_test w s = (test_code w, emit s (test_report w s))).
  { unfold cmd_test, mss_handshake, test_code, test_report, succeeded, printf.
    unfold bind at 1. rewrite fprintf_run.
    unfold bind at 1. unfold bind at 1. rewrite library_logs_run.
    unfold ret at 1. cbv beta iota. rewrite log_lines_emit, emit_emit.
    destruct (hs_result (handshake w) =? MSS_SUCCESS); cbn [negb andb].
    - do 3 (unfold bind at 1; rewrite fprintf_run, emit_emit).
      unfold bind at 1. rewrite test_caps_run, emit_emit.
      unfold bind at 1. rewrite fprintf_run, emit_emit.
      destruct (test_cap_count (hs_capabilities (handshake w)) =? 7).
      + unfold bind at 1. rewrite fprintf_run, emit_emit. unfold ret.
        f_equal. f_equal. cbn [app]. rewrite <- !app_assoc. reflexivity.
      + do 2 (unfold bind at 1; rewrite fprintf_run, emit_emit). unfold ret.
        f_equal. f_equal. cbn [app]. rewrite <- !app_assoc. reflexivity.
    - unfold bind at 1. rewrite print_error_run, emit_emit.
      unfold bind at 1. rewrite fprintf_run, emit_emit. unfold ret.
      f_equal. f_equal. cbn [app]. rewrite <- !app_assoc. reflexivity. }
  split; [exact Hrun |]. split; [now rewrite Hrun |].
  split; [apply capability_lines_length |].
  unfold test_report.
  rewrite stderr_of_cons_stdout by reflexivity.
  rewrite stderr_of_app, stderr_of_log_lines.
  destruct (succeeded (hs_result (handshake w))); [| reflexivity].
  rewrite !stderr_of_app, stderr_of_capability_lines.
  destruct (test_cap_count (hs_capabilities (handshake w)) =? 7); reflexivity.
Qed.

End TestOutput.
